(** * FMOD constant generator: a verified model of [generate_fmod_constants.py]

    The script reads C headers, recovers [name -> integer] tables from
    [typedef enum] blocks and [#define] macros, and prints them as Java
    constants.  This file embeds [parse_enum], [parse_defines] and, of
    [main], the search for the version macro and the path from the merged
    table to the Java text, together with the Python built-ins they call,
    and proves the properties the specification states about them.

    Modelling conventions.
    - A Python [str] is a [list ascii]; a character is a code point below 256
      (Latin-1), and the character classes below are Python's on that range.
    - A Python [int] is a [Z] (unbounded); the interpreter's limit on the
      number of digits of a decimal literal and the memory a huge shift
      would need are not modelled.
    - A Python [dict] is an insertion-ordered association list.
    - A raised exception is the [Raise] constructor of [result].
    - The construct name and the prefix interpolated into a regular
      expression are read literally, which is what [re] does for names made
      of word characters (all the names [main] passes are such). *)

From Stdlib Require Import Ascii String List ZArith NArith Bool Lia Sorted.
Import ListNotations.

Open Scope string_scope.
Open Scope Z_scope.
Open Scope list_scope.

(* ================================================================== *)
(** * Python strings *)
(* ================================================================== *)

Definition str := list ascii.

(** String literals are written with Rocq's string notation. *)
Coercion list_ascii_of_string : string >-> list.

Module PyStr.

Definition code (c : ascii) : N := N_of_ascii c.

Definition chr_eqb (a b : ascii) : bool := Ascii.eqb a b.

Fixpoint eqb (s t : str) : bool :=
  match s, t with
  | [], [] => true
  | a :: s', b :: t' => chr_eqb a b && eqb s' t'
  | _, _ => false
  end.

Definition in_range (lo hi : N) (c : ascii) : bool :=
  (lo <=? code c)%N && (code c <=? hi)%N.

(** [str.isspace] on one character; also the class [\s] of [re]. *)
Definition is_space (c : ascii) : bool :=
  in_range 9 13 c || in_range 28 32 c
  || (code c =? 133)%N || (code c =? 160)%N.

(** The class [\d] of [re] (the decimal digits below 256). *)
Definition is_digit (c : ascii) : bool := in_range 48 57 c.

(** The class [[0-9A-Fa-f]]. *)
Definition is_hex_digit (c : ascii) : bool :=
  in_range 48 57 c || in_range 65 70 c || in_range 97 102 c.

(** The class [[A-Z0-9_]]. *)
Definition is_upper_word (c : ascii) : bool :=
  in_range 65 90 c || in_range 48 57 c || (code c =? 95)%N.

(** The class [\w] of [re]: [str.isalnum] or underscore. *)
Definition is_word (c : ascii) : bool :=
  in_range 48 57 c || in_range 65 90 c || (code c =? 95)%N
  || in_range 97 122 c
  || (code c =? 170)%N || (code c =? 178)%N || (code c =? 179)%N
  || (code c =? 181)%N || (code c =? 185)%N || (code c =? 186)%N
  || in_range 188 190 c || in_range 192 214 c || in_range 216 246 c
  || in_range 248 255 c.

Fixpoint drop_while (p : ascii -> bool) (s : str) : str :=
  match s with
  | [] => []
  | c :: t => if p c then drop_while p t else s
  end.

Fixpoint take_while (p : ascii -> bool) (s : str) : str :=
  match s with
  | [] => []
  | c :: t => if p c then c :: take_while p t else []
  end.

Definition lstrip (s : str) : str := drop_while is_space s.
Definition rstrip (s : str) : str := rev (drop_while is_space (rev s)).

(** [s.strip()] *)
Definition strip (s : str) : str := rstrip (lstrip s).

(** [s.rstrip(c)] for a one-character argument. *)
Definition rstrip_chr (c : ascii) (s : str) : str :=
  rev (drop_while (chr_eqb c) (rev s)).

(** [s.startswith(p)] *)
Fixpoint startswith (p s : str) : bool :=
  match p, s with
  | [], _ => true
  | a :: p', b :: s' => chr_eqb a b && startswith p' s'
  | _ :: _, [] => false
  end.

(** [s.endswith(p)] *)
Definition endswith (p s : str) : bool := startswith (rev p) (rev s).

(** [sub in s] *)
Fixpoint contains (sub s : str) : bool :=
  startswith sub s ||
  match s with
  | [] => false
  | _ :: t => contains sub t
  end.

(** [s.split(sep)] for a non-empty separator: the separator is looked for
    from left to right, occurrences do not overlap.  [skip] counts the
    characters of a separator just recognised that are still to be passed
    over, [cur] is the part being collected, last character first. *)
Fixpoint split_from (sep : str) (skip : nat) (cur : str) (s : str)
  : list str :=
  match s with
  | [] => [rev cur]
  | c :: t =>
      match skip with
      | S k => split_from sep k cur t
      | O =>
          if startswith sep s
          then rev cur :: split_from sep (Nat.pred (length sep)) [] t
          else split_from sep O (c :: cur) t
      end
  end.

Definition split (sep s : str) : list str := split_from sep O [] s.

(** The remainder of [s] after the prefix [p], when [s] starts with [p]. *)
Fixpoint after_prefix (p s : str) : option str :=
  match p, s with
  | [], _ => Some s
  | a :: p', b :: s' => if chr_eqb a b then after_prefix p' s' else None
  | _ :: _, [] => None
  end.

(** The text before the first occurrence of [sub] in [s], and the text
    after that occurrence; [None] when [sub] does not occur. *)
Fixpoint cut (sub s : str) : option (str * str) :=
  match after_prefix sub s with
  | Some r => Some ([], r)
  | None =>
      match s with
      | [] => None
      | c :: t =>
          match cut sub t with
          | Some (before, after) => Some (c :: before, after)
          | None => None
          end
      end
  end.

End PyStr.

(* ================================================================== *)
(** * Exceptions *)
(* ================================================================== *)

Inductive exn : Type :=
| ValueError
| KeyError.

Inductive result (A : Type) : Type :=
| Ok (a : A)
| Raise (e : exn).

Arguments Ok {A} a.
Arguments Raise {A} e.

Definition bind {A B : Type} (m : result A) (k : A -> result B) : result B :=
  match m with
  | Ok a => k a
  | Raise e => Raise e
  end.

Notation "x <- m ;; k" := (bind m (fun x => k))
  (at level 61, m at next level, right associativity).

(* ================================================================== *)
(** * Python integers: [int(s)], [int(s, 16)], [<<], [str], [format] *)
(* ================================================================== *)

Module PyInt.
Import PyStr.

(** The white space [int()] skips around a literal. *)
Definition int_space (c : ascii) : bool :=
  in_range 9 13 c || (code c =? 32)%N
  || (code c =? 133)%N || (code c =? 160)%N.

(** Value of a character as a digit (letters count from ten). *)
Definition digit_value (c : ascii) : option Z :=
  if in_range 48 57 c then Some (Z.of_N (code c) - 48)
  else if in_range 97 122 c then Some (Z.of_N (code c) - 87)
  else if in_range 65 90 c then Some (Z.of_N (code c) - 55)
  else None.

Definition is_underscore (c : ascii) : bool := (code c =? 95)%N.

(** Digits of a literal, single underscores allowed between digits.
    [started] tells that a digit was read, [prev_us] that the previous
    character was an underscore.  Returns the value and the unread rest. *)
Fixpoint scan_digits (base : Z) (started prev_us : bool) (acc : Z) (s : str)
  : option (Z * str) :=
  let finish := if started && negb prev_us then Some (acc, s) else None in
  match s with
  | [] => finish
  | c :: t =>
      if is_underscore c then
        if started && negb prev_us then scan_digits base started true acc t
        else None
      else
        match digit_value c with
        | Some d =>
            if d <? base
            then scan_digits base true false (acc * base + d) t
            else finish
        | None => finish
        end
  end.

Definition skip_sign (s : str) : Z * str :=
  match s with
  | c :: t =>
      if (code c =? 43)%N then (1, t)
      else if (code c =? 45)%N then (-1, t)
      else (1, s)
  | [] => (1, s)
  end.

(** The optional [0x] / [0X] of a base-16 literal, and one underscore
    after it. *)
Definition skip_hex_prefix (s : str) : str :=
  match s with
  | z :: x :: t =>
      if (code z =? 48)%N && ((code x =? 120)%N || (code x =? 88)%N)
      then match t with
           | u :: t' => if is_underscore u then t' else t
           | [] => t
           end
      else s
  | _ => s
  end.

(** [int(s, base)] for [base] 10 or 16. *)
Definition int_of (base : Z) (s : str) : result Z :=
  let s1 := drop_while int_space s in
  let '(sign, s2) := skip_sign s1 in
  let s3 := if base =? 16 then skip_hex_prefix s2 else s2 in
  match scan_digits base false false 0 s3 with
  | Some (v, rest) =>
      match drop_while int_space rest with
      | [] => Ok (sign * v)
      | _ :: _ => Raise ValueError
      end
  | None => Raise ValueError
  end.

(** [a << b] *)
Definition lshift (a b : Z) : result Z :=
  if b <? 0 then Raise ValueError else Ok (Z.shiftl a b).

(** Character of a digit below sixteen, letters in upper case. *)
Definition digit_chr (d : N) : ascii :=
  if (d <? 10)%N then ascii_of_N (48 + d) else ascii_of_N (55 + d).

(** Digits of [n] in [base], most significant first; [fuel] bounds their
    number. *)
Fixpoint digits_from (fuel : nat) (base n : N) (acc : str) : str :=
  match fuel with
  | O => acc
  | S f =>
      let acc' := digit_chr (n mod base) :: acc in
      if (n / base =? 0)%N then acc' else digits_from f base (n / base) acc'
  end.

Definition digits (base n : N) : str :=
  digits_from (S (N.to_nat (N.log2 n))) base n [].

(** [str(v)] *)
Definition to_str (v : Z) : str :=
  if v <? 0 then "-" ++ digits 10 (Z.abs_N v) else digits 10 (Z.abs_N v).

(** [format(v, "08X")]: upper-case hexadecimal, padded with zeros between
    the sign and the digits up to a width of eight characters. *)
Definition format_08X (v : Z) : str :=
  let sign : str := if v <? 0 then "-" else "" in
  let body := digits 16 (Z.abs_N v) in
  sign ++ repeat "0"%char (8 - length sign - length body) ++ body.

End PyInt.

(* ================================================================== *)
(** * Python dictionaries with string keys *)
(* ================================================================== *)

Module Dict.

Definition t := list (str * Z).

Definition empty : t := [].

(** [k in d] and [d.get(k)] *)
Fixpoint get (k : str) (d : t) : option Z :=
  match d with
  | [] => None
  | (k', v) :: d' => if PyStr.eqb k k' then Some v else get k d'
  end.

Definition mem (k : str) (d : t) : bool :=
  match get k d with
  | Some _ => true
  | None => false
  end.

(** [d[k]], which raises [KeyError] on a key that is absent. *)
Definition getitem (k : str) (d : t) : result Z :=
  match get k d with
  | Some v => Ok v
  | None => Raise KeyError
  end.

(** [d[k] = v]: a key already present keeps its place, a new key goes last. *)
Fixpoint set (k : str) (v : Z) (d : t) : t :=
  match d with
  | [] => [(k, v)]
  | (k', v') :: d' =>
      if PyStr.eqb k k' then (k', v) :: d' else (k', v') :: set k v d'
  end.

(** [d.update(other)] *)
Definition update (d other : t) : t :=
  fold_left (fun acc kv => set (fst kv) (snd kv) acc) other d.

(** [d.keys()] *)
Definition keys (d : t) : list str := map fst d.

End Dict.

(* ================================================================== *)
(** * [parse_enum] *)
(* ================================================================== *)

Module Enum.
Import PyStr.

(** [re.sub(r'//.*', '', line)]: a line holds no newline, so the first [//]
    and all that follows it go. *)
Definition sub_line_comment (line : str) : str :=
  match cut "//" line with
  | Some (before, _) => before
  | None => line
  end.

(** Number of characters up to and including the first [*/] of [s]. *)
Fixpoint close_len (s : str) : option nat :=
  if startswith "*/" s then Some 2%nat
  else match s with
       | [] => None
       | _ :: t => option_map S (close_len t)
       end.

(** [re.sub(r'/\*.*?\*/', '', line)]: every [/*] that has a [*/] after it
    goes with the text up to the nearest such [*/]; [skip] counts the
    characters of a comment still to be dropped. *)
Fixpoint sub_block_comment_from (skip : nat) (s : str) : str :=
  match s with
  | [] => []
  | c :: t =>
      match skip with
      | S k => sub_block_comment_from k t
      | O =>
          if startswith "/*" s then
            match close_len (tl t) with
            | Some n => sub_block_comment_from (S n) t
            | None => c :: sub_block_comment_from O t
            end
          else c :: sub_block_comment_from O t
      end
  end.

Definition sub_block_comment (line : str) : str :=
  sub_block_comment_from O line.

(** [re.search(rf'typedef enum {enum_name}\s*\{{(.*?)\}}', text, re.DOTALL)]
    tried at the start of [s]: the captured body, if the pattern matches
    there. *)
Definition match_here (enum_name s : str) : option str :=
  match after_prefix ("typedef enum " ++ enum_name) s with
  | Some r =>
      match after_prefix "{" (drop_while is_space r) with
      | Some r' =>
          match cut "}" r' with
          | Some (body, _) => Some body
          | None => None
          end
      | None => None
      end
  | None => None
  end.

(** The first position of the text where the pattern matches wins. *)
Fixpoint search (enum_name s : str) : option str :=
  match match_here enum_name s with
  | Some body => Some body
  | None =>
      match s with
      | [] => None
      | _ :: t => search enum_name t
      end
  end.

(** The two local variables the loop of [parse_enum] updates. *)
Record state : Type := mkState {
  constants : Dict.t;
  current_value : Z
}.

Definition init : state := mkState Dict.empty 0.

(** The test of line 60: [name and not name.endswith('FORCEINT')]. *)
Definition recordable (name : str) : bool :=
  negb (eqb name "") && negb (endswith "FORCEINT" name).

(** Lines 60-62, once [current_value] holds the member's value. *)
Definition record (name : str) (v : Z) (st : state) : state :=
  if recordable name
  then mkState (Dict.set name v (constants st)) (v + 1)
  else mkState (constants st) v.

(** Lines 44-56: the value of an explicit assignment.  [Ok None] is the
    [continue] of the handler. *)
Definition eval_value (value_str : str) : result (option Z) :=
  if startswith "0x" value_str then
    v <- PyInt.int_of 16 value_str ;; Ok (Some v)
  else if contains "<<" value_str then
    match split "<<" value_str with
    | [base; shift] =>
        b <- PyInt.int_of 10 (strip base) ;;
        s <- PyInt.int_of 10 (strip shift) ;;
        v <- PyInt.lshift b s ;;
        Ok (Some v)
    | _ => Raise ValueError
    end
  else
    match PyInt.int_of 10 value_str with
    | Ok v => Ok (Some v)
    | Raise _ => Ok None
    end.

(** Lines 30-32. *)
Definition clean (line : str) : str :=
  strip (rstrip_chr ","%char (sub_block_comment (sub_line_comment line))).

(** Lines 25-35: the text of a line once stripped of comments and of its
    trailing commas, or [None] when the loop passes over the line. *)
Definition member_line (raw : str) : option str :=
  let line := strip raw in
  if eqb line "" || startswith "//" line || startswith "/*" line then None
  else
    let line := clean line in
    if eqb line "" || eqb line "}" then None else Some line.

(** Lines 38-41: name and value text of a line that holds an [=]. *)
Definition assignment (line : str) : option (str * str) :=
  if contains "=" line then
    let parts := split "=" line in
    Some (strip (nth 0 parts []), strip (nth 1 parts []))
  else None.

(** One iteration of the loop over the lines of the body (lines 25-62). *)
Definition step (st : state) (raw : str) : result state :=
  match member_line raw with
  | None => Ok st
  | Some line =>
      match assignment line with
      | Some (name, value_str) =>
          r <- eval_value value_str ;;
          match r with
          | Some v => Ok (record name v st)
          | None => Ok st
          end
      | None => Ok (record (strip line) (current_value st) st)
      end
  end.

Fixpoint run (st : state) (lines : list str) : result state :=
  match lines with
  | [] => Ok st
  | l :: ls => st' <- step st l ;; run st' ls
  end.

(** The loop on a captured body. *)
Definition parse_body (enum_body : str) : result Dict.t :=
  st <- run init (split [ascii_of_N 10] enum_body) ;;
  Ok (constants st).

End Enum.

Definition parse_enum (header_content enum_name : str) : result Dict.t :=
  match Enum.search enum_name header_content with
  | None => Ok Dict.empty
  | Some enum_body => Enum.parse_body enum_body
  end.

(* ================================================================== *)
(** * [parse_defines] *)
(* ================================================================== *)

Module Defines.
Import PyStr.

(** What one match of the pattern captures: group 1, group 2, and the number
    of characters the whole match spans. *)
Record define_match : Type := mkMatch {
  group1 : str;
  group2 : str;
  span : nat
}.

(** The value part [(0x[0-9A-Fa-f]+|\d+)] at the start of [s]; with
    [decimal = false] only the first alternative, as in the patterns of
    [main]. *)
Definition literal_here (decimal : bool) (s : str) : option str :=
  let hex :=
    match after_prefix "0x" s with
    | Some r => take_while is_hex_digit r
    | None => []
    end in
  match hex with
  | _ :: _ => Some ("0x" ++ hex)
  | [] =>
      if decimal then
        match take_while is_digit s with
        | [] => None
        | d => Some d
        end
      else None
  end.

(** [#define\s+({prefix}{tail}+)\s+{literal}] tried at the start of [s],
    where [tail] is a character class ([\w] in [parse_defines]).  Every
    repetition is followed by something that no character of its class can
    start, so the longest run is the only one that can lead to a match. *)
Definition match_here (prefix : str) (tail : ascii -> bool) (decimal : bool)
    (s : str) : option define_match :=
  match after_prefix "#define" s with
  | None => None
  | Some r0 =>
      match take_while is_space r0 with
      | [] => None
      | ws1 =>
          match after_prefix prefix (drop_while is_space r0) with
          | None => None
          | Some r1 =>
              match take_while tail r1 with
              | [] => None
              | w =>
                  let r2 := drop_while tail r1 in
                  match take_while is_space r2 with
                  | [] => None
                  | ws2 =>
                      match literal_here decimal (drop_while is_space r2) with
                      | None => None
                      | Some lit =>
                          Some (mkMatch (prefix ++ w) lit
                                  (7 + length ws1 + length prefix + length w
                                   + length ws2 + length lit))
                      end
                  end
              end
          end
      end
  end.

(** [re.finditer(pattern, text)]: matches from left to right, the search
    resuming where the previous match ended.  [skip] counts the characters of
    that match still to be passed over. *)
Fixpoint finditer_from (prefix : str) (tail : ascii -> bool) (decimal : bool)
    (skip : nat) (s : str) : list define_match :=
  match s with
  | [] => []
  | _ :: t =>
      match skip with
      | S k => finditer_from prefix tail decimal k t
      | O =>
          match match_here prefix tail decimal s with
          | Some m => m :: finditer_from prefix tail decimal (Nat.pred (span m)) t
          | None => finditer_from prefix tail decimal O t
          end
      end
  end.

Definition finditer (prefix : str) (tail : ascii -> bool) (decimal : bool)
    (s : str) : list define_match :=
  finditer_from prefix tail decimal O s.



End Defines.


(* ================================================================== *)
(** * [main]: from the merged table to the Java text (lines 153-238) *)
(* ================================================================== *)

Module Main.
Import PyStr.

Definition nl : str := [ascii_of_N 10].

(** [re.search(r'#define\s+FMOD_VERSION\s+(0x[0-9A-Fa-f]+)', text)] tried
    at the start of [s]: group 1, if the pattern matches there. *)
Definition version_here (s : str) : option str :=
  match after_prefix "#define" s with
  | None => None
  | Some r0 =>
      match take_while is_space r0 with
      | [] => None
      | _ :: _ =>
          match after_prefix "FMOD_VERSION" (drop_while is_space r0) with
          | None => None
          | Some r1 =>
              match take_while is_space r1 with
              | [] => None
              | _ :: _ =>
                  Defines.literal_here false (drop_while is_space r1)
              end
          end
      end
  end.

Fixpoint version_match (s : str) : option str :=
  match version_here s with
  | Some g => Some g
  | None =>
      match s with
      | [] => None
      | _ :: t => version_match t
      end
  end.

(** Lines 149-151. *)
Definition add_version (fmod_common : str) (all_constants : Dict.t)
  : result Dict.t :=
  match version_match fmod_common with
  | Some g =>
      v <- PyInt.int_of 16 g ;;
      Ok (Dict.set "FMOD_VERSION" v all_constants)
  | None => Ok all_constants
  end.

(** Lexicographic order on code points, the order of [sorted] on strings. *)
Fixpoint str_leb (s t : str) : bool :=
  match s, t with
  | [], _ => true
  | _ :: _, [] => false
  | a :: s', b :: t' =>
      if (code a <? code b)%N then true
      else if (code b <? code a)%N then false
      else str_leb s' t'
  end.

Fixpoint insert_sorted (x : str) (l : list str) : list str :=
  match l with
  | [] => [x]
  | y :: l' => if str_leb x y then x :: l else y :: insert_sorted x l'
  end.

(** [sorted(names)] *)
Definition sorted (names : list str) : list str :=
  fold_right insert_sorted [] names.

(** The dictionary [categories]: category label to list of names, in the
    order of the literal of lines 154-165. *)
Definition categories_t := list (str * list str).

Definition categories0 : categories_t :=
  [ ("Version" : str, ["FMOD_VERSION" : str]);
    ("Result codes" : str, []);
    ("FMOD_INITFLAGS" : str, []);
    ("FMOD_MODE" : str, []);
    ("FMOD_TIMEUNIT" : str, []);
    ("FMOD_SYSTEM_CALLBACK_TYPE" : str, []);
    ("FMOD_CHANNELMASK" : str, []);
    ("FMOD_OUTPUTTYPE" : str, []);
    ("FMOD_SPEAKERMODE" : str, []);
    ("FMOD_SOUND_TYPE" : str, []) ].

(** The chain of tests of lines 169-189: the category a name is appended
    to, if any. *)
Definition category_of (name : str) : option str :=
  if eqb name "FMOD_VERSION" then None
  else if startswith "FMOD_OK" name || startswith "FMOD_ERR_" name
       then Some ("Result codes" : str)
  else if startswith "FMOD_INIT_" name then Some ("FMOD_INITFLAGS" : str)
  else if startswith "FMOD_TIMEUNIT_" name then Some ("FMOD_TIMEUNIT" : str)
  else if startswith "FMOD_SYSTEM_CALLBACK_" name
       then Some ("FMOD_SYSTEM_CALLBACK_TYPE" : str)
  else if startswith "FMOD_CHANNELMASK_" name
       then Some ("FMOD_CHANNELMASK" : str)
  else if startswith "FMOD_OUTPUTTYPE_" name
       then Some ("FMOD_OUTPUTTYPE" : str)
  else if startswith "FMOD_SPEAKERMODE_" name
       then Some ("FMOD_SPEAKERMODE" : str)
  else if startswith "FMOD_SOUND_TYPE_" name
       then Some ("FMOD_SOUND_TYPE" : str)
  else if startswith "FMOD_" name then Some ("FMOD_MODE" : str)
  else None.

(** [categories[c].append(name)]; every label [category_of] returns is a key
    of [categories0]. *)
Fixpoint append_to (c name : str) (cats : categories_t) : categories_t :=
  match cats with
  | [] => []
  | (c', names) :: rest =>
      if eqb c c' then (c', names ++ [name]) :: rest
      else (c', names) :: append_to c name rest
  end.

Definition categorize_one (cats : categories_t) (name : str) : categories_t :=
  match category_of name with
  | Some c => append_to c name cats
  | None => cats
  end.

(** Lines 168-189. *)
Definition categorize (all_constants : Dict.t) : categories_t :=
  fold_left categorize_one (sorted (Dict.keys all_constants)) categories0.

(** The categories whose small values are still written in hexadecimal
    (the list of lines 222-223). *)
Definition flag_categories : list str :=
  [ "FMOD_MODE" : str; "FMOD_INITFLAGS" : str; "FMOD_TIMEUNIT" : str;
    "FMOD_SYSTEM_CALLBACK_TYPE" : str; "FMOD_CHANNELMASK" : str ].

Definition is_flag_category (category : str) : bool :=
  existsb (eqb category) flag_categories.

Definition hex_literal (value : Z) : str := "0x" ++ PyInt.format_08X value.

(** Lines 218-228. *)
Definition value_str (category : str) (value : Z) : str :=
  if 0x1000000 <=? value then hex_literal value
  else if 0x100 <=? value then hex_literal value
  else if is_flag_category category then hex_literal value
  else PyInt.to_str value.

(** What one [java_code += ...] of the loop appends. *)
Inductive piece : Type :=
| Comment (category : str)
| Decl (name literal : str) (annotated : bool)
| Blank.

Definition render (p : piece) : str :=
  match p with
  | Comment category => "    // " ++ category ++ nl
  | Decl name literal true =>
      "    static final int " ++ name ++ " = " ++ literal ++ "; // 2.03.09"
      ++ nl
  | Decl name literal false =>
      "    static final int " ++ name ++ " = " ++ literal ++ ";" ++ nl
  | Blank => nl
  end.

(** Lines 213-234: one name of a category. *)
Definition emit_name (category : str) (all_constants : Dict.t) (name : str)
  : result (list piece) :=
  if negb (Dict.mem name all_constants) then Ok []
  else
    value <- Dict.getitem name all_constants ;;
    Ok [Decl name (value_str category value) (eqb name "FMOD_VERSION")].

Fixpoint emit_names (category : str) (all_constants : Dict.t)
    (names : list str) : result (list piece) :=
  match names with
  | [] => Ok []
  | name :: rest =>
      p <- emit_name category all_constants name ;;
      ps <- emit_names category all_constants rest ;;
      Ok (p ++ ps)
  end.

(** Lines 207-236: one category. *)
Definition emit_category (all_constants : Dict.t) (c : str * list str)
  : result (list piece) :=
  match snd c with
  | [] => Ok []
  | names =>
      ps <- emit_names (fst c) all_constants names ;;
      Ok (Comment (fst c) :: ps ++ [Blank])
  end.

Fixpoint emit_categories (all_constants : Dict.t) (cats : categories_t)
  : result (list piece) :=
  match cats with
  | [] => Ok []
  | c :: rest =>
      p <- emit_category all_constants c ;;
      ps <- emit_categories all_constants rest ;;
      Ok (p ++ ps)
  end.

(** The pieces appended to [java_code] between its first and its last
    assignment. *)
Definition pieces (all_constants : Dict.t) : result (list piece) :=
  emit_categories all_constants (categorize all_constants).

(** The text [java_code] starts from (lines 192-204). *)
Definition java_header : str :=
  "package audio.fmod;" ++ nl ++ nl
  ++ "import lombok.experimental.UtilityClass;" ++ nl ++ nl
  ++ "/**" ++ nl
  ++ " * FMOD Core API constants from fmod_common.h and fmod.h." ++ nl
  ++ " * Auto-generated from FMOD headers - DO NOT EDIT MANUALLY." ++ nl
  ++ " * Generated from FMOD version 2.03.09" ++ nl
  ++ " */" ++ nl
  ++ "@UtilityClass" ++ nl
  ++ "class FmodConstants {" ++ nl ++ nl.

(** The value of [java_code] when it is written out. *)
Definition java_code (all_constants : Dict.t) : result str :=
  ps <- pieces all_constants ;;
  Ok (java_header ++ concat (map render ps) ++ "}" ++ nl).

End Main.


(* ================================================================== *)
(** * [main]: from the header text to the merged table (lines 93-151) *)
(* ================================================================== *)

Module Scan.
Import PyStr.

(** The loops of lines 108-111, 122-125, 129-132, 136-139 and 143-146:
    [all_constants[name] = int(match.group(2), 16)]. *)
Definition store_hex (all_constants : Dict.t) (m : Defines.define_match)
  : result Dict.t :=
  value <- PyInt.int_of 16 (Defines.group2 m) ;;
  Ok (Dict.set (Defines.group1 m) value all_constants).

Fixpoint store_hex_all (all_constants : Dict.t)
    (ms : list Defines.define_match) : result Dict.t :=
  match ms with
  | [] => Ok all_constants
  | m :: ms' => d <- store_hex all_constants m ;; store_hex_all d ms'
  end.

(** One of these loops: the pattern
    [#define\s+({prefix}{tail}+)\s+(0x[0-9A-Fa-f]+)] over [text]. *)
Definition scan_flags (prefix : str) (tail : ascii -> bool) (text : str)
    (all_constants : Dict.t) : result Dict.t :=
  store_hex_all all_constants (Defines.finditer prefix tail false text).

(** The look-ahead [(?=typedef|/\*\s+FMOD_TIMEUNIT)] of line 117. *)
Definition mode_end_here (s : str) : bool :=
  startswith "typedef" s
  || match after_prefix "/*" s with
     | Some r =>
         match take_while is_space r with
         | [] => false
         | _ :: _ => startswith "FMOD_TIMEUNIT" (drop_while is_space r)
         end
     | None => false
     end.

(** The lazy group [(.*?)] followed by a look-ahead: the shortest text after
    which [stop] holds. *)
Fixpoint lazy_until (stop : str -> bool) (s : str) : option str :=
  if stop s then Some []
  else match s with
       | [] => None
       | c :: t =>
           match lazy_until stop t with
           | Some body => Some (c :: body)
           | None => None
           end
       end.

(** The pattern of lines 116-118 tried at the start of [s]: group 1. *)
Definition mode_section_here (s : str) : option str :=
  match after_prefix "typedef unsigned int FMOD_MODE;" s with
  | Some r => lazy_until mode_end_here r
  | None => None
  end.

Fixpoint mode_section_match (s : str) : option str :=
  match mode_section_here s with
  | Some g => Some g
  | None =>
      match s with
      | [] => None
      | _ :: t => mode_section_match t
      end
  end.

(** The enums of lines 100-102. *)
Definition enum_names : list str :=
  [ "FMOD_OUTPUTTYPE" : str; "FMOD_SPEAKERMODE" : str;
    "FMOD_SOUND_TYPE" : str; "FMOD_SOUND_FORMAT" : str;
    "FMOD_OPENSTATE" : str; "FMOD_SOUNDGROUP_BEHAVIOR" : str;
    "FMOD_CHANNELCONTROL_TYPE" : str; "FMOD_THREAD_TYPE" : str ].

(** Lines 96-97 and the body of the loop of lines 103-104. *)
Definition add_enum (fmod_common : str) (all_constants : Dict.t)
    (enum_name : str) : result Dict.t :=
  constants <- parse_enum fmod_common enum_name ;;
  Ok (Dict.update all_constants constants).

Fixpoint add_enums (fmod_common : str) (all_constants : Dict.t)
    (names : list str) : result Dict.t :=
  match names with
  | [] => Ok all_constants
  | enum_name :: rest =>
      d <- add_enum fmod_common all_constants enum_name ;;
      add_enums fmod_common d rest
  end.

(** Lines 113-125. *)
Definition add_modes (fmod_common : str) (all_constants : Dict.t)
  : result Dict.t :=
  match mode_section_match fmod_common with
  | Some mode_section =>
      scan_flags "FMOD_" is_upper_word mode_section all_constants
  | None => Ok all_constants
  end.

(** Lines 93-151: the value of [all_constants] when the categories are
    formed. *)
Definition all_constants (fmod_common : str) : result Dict.t :=
  d <- add_enum fmod_common Dict.empty "FMOD_RESULT" ;;
  d <- add_enums fmod_common d enum_names ;;
  d <- scan_flags "FMOD_TIMEUNIT_" is_word fmod_common d ;;
  d <- add_modes fmod_common d ;;
  d <- scan_flags "FMOD_INIT_" is_word fmod_common d ;;
  d <- scan_flags "FMOD_SYSTEM_CALLBACK_" is_word fmod_common d ;;
  d <- scan_flags "FMOD_CHANNELMASK_" is_word fmod_common d ;;
  Main.add_version fmod_common d.

End Scan.

(** [main] without its files: from the text of [fmod_common.h] to the text
    written to [FmodConstants.java] and the number printed as
    [Total constants] (the text of [fmod.h] is read and not used). *)
Definition main (fmod_common : str) : result (str * nat) :=
  all_constants <- Scan.all_constants fmod_common ;;
  java_code <- Main.java_code all_constants ;;
  Ok (java_code, length all_constants).
(* ================================================================== *)
(** * Definitions used to state the properties *)
(* ================================================================== *)

Definition nl : str := Main.nl.

(** The table a sequence of assignments [d[k] = v] builds from [d]. *)
Definition writes (d : Dict.t) (kvs : list (str * Z)) : Dict.t :=
  Dict.update d kvs.

(** Names paired with consecutive integers from [n] on. *)
Fixpoint number_from (n : Z) (names : list str) : list (str * Z) :=
  match names with
  | [] => []
  | name :: rest => (name, n) :: number_from (n + 1) rest
  end.

(** The names a body without assignments declares, in the order of their
    lines: the member lines whose name is kept by the test of line 60. *)
Fixpoint recorded_names (lines : list str) : list str :=
  match lines with
  | [] => []
  | raw :: rest =>
      match Enum.member_line raw with
      | Some line =>
          if Enum.recordable (PyStr.strip line)
          then PyStr.strip line :: recorded_names rest
          else recorded_names rest
      | None => recorded_names rest
      end
  end.

(** The line is passed over, or its text holds no assignment token. *)
Definition implicit_line (raw : str) : bool :=
  match Enum.member_line raw with
  | Some line => negb (PyStr.contains "=" line)
  | None => true
  end.


(** No member line of the list holds an assignment token. *)
Definition no_assignment (lines : list str) : bool :=
  forallb implicit_line lines.

(** The lines of a captured body. *)
Definition lines_of (enum_body : str) : list str := PyStr.split nl enum_body.

(** An enum of three members without values, one to a line. *)
Definition header_implicit : str :=
  "typedef enum E_KIND" ++ nl
  ++ "{" ++ nl
  ++ "    E_KIND_A,   /* first */" ++ nl
  ++ "    // a note" ++ nl
  ++ "    E_KIND_B," ++ nl
  ++ "    E_KIND_C," ++ nl
  ++ "    E_KIND_FORCEINT" ++ nl
  ++ "} E_KIND;".

(** The scenario of the specification, written on one line. *)
Definition scenario_one_line : str :=
  "typedef enum E_RESULT { E_OK, E_ERR_BAD = 5, E_ERR_WORSE } E_RESULT;".

(** The same enum with one member to a line. *)
Definition scenario_lines : str :=
  "typedef enum E_RESULT {" ++ nl
  ++ "E_OK," ++ nl
  ++ "E_ERR_BAD = 5," ++ nl
  ++ "E_ERR_WORSE" ++ nl
  ++ "} E_RESULT;".

Definition scenario_table : Dict.t :=
  [ ("E_OK" : str, 0); ("E_ERR_BAD" : str, 5); ("E_ERR_WORSE" : str, 6) ].

(** A header whose second member starts like a hexadecimal literal. *)
Definition header_bad_hex : str :=
  "typedef enum E {" ++ nl
  ++ "A = 1," ++ nl
  ++ "B = 0xZZ," ++ nl
  ++ "C" ++ nl
  ++ "} E;".

(** A header whose second member refers to the first. *)
Definition header_symbolic : str :=
  "typedef enum E {" ++ nl
  ++ "A = 1," ++ nl
  ++ "B = A + 1," ++ nl
  ++ "C" ++ nl
  ++ "} E;".

(** A header whose second member is a parenthesised shift. *)
Definition header_paren_shift : str :=
  "typedef enum E {" ++ nl
  ++ "A = 1," ++ nl
  ++ "B = (1 << 2)," ++ nl
  ++ "C" ++ nl
  ++ "} E;".


(** An enum whose second member is assigned [0x10]. *)
Definition header_hex : str :=
  "typedef enum E_FLAG {" ++ nl
  ++ "    E_FLAG_NONE," ++ nl
  ++ "    E_FLAG_A = 0x10," ++ nl
  ++ "    /* the next one is implicit */" ++ nl
  ++ "    E_FLAG_B," ++ nl
  ++ "} E_FLAG;".

(** An enum whose sentinel sits in the middle and carries a value. *)
Definition header_sentinel : str :=
  "typedef enum E_MODE {" ++ nl
  ++ "    E_MODE_A," ++ nl
  ++ "    E_MODE_FORCEINT = 65536," ++ nl
  ++ "    E_MODE_B" ++ nl
  ++ "} E_MODE;".

(** The text is a bare integer literal: [0x] and hexadecimal digits, or
    decimal digits, and nothing else. *)
Definition bare_literal (s : str) : bool :=
  match PyStr.after_prefix "0x" s with
  | Some (c :: r) => forallb PyStr.is_hex_digit (c :: r)
  | _ => false
  end
  || match s with
     | [] => false
     | _ :: _ => forallb PyStr.is_digit s
     end.


(** [n] written with exactly [width] digits in [base]: the digit of rank
    [i] from the right is [(n / base^i) mod base]. *)
Fixpoint fixed_digits (base : N) (width : nat) (n : N) : str :=
  match width with
  | O => []
  | S w => fixed_digits base w (n / base) ++ [PyInt.digit_chr (n mod base)]
  end.



(** The names the pieces declare. *)
Fixpoint declared (ps : list Main.piece) : list str :=
  match ps with
  | [] => []
  | Main.Decl name _ _ :: rest => name :: declared rest
  | _ :: rest => declared rest
  end.

(** Every declaration among the pieces is that of a key of the table. *)
Definition declares_keys (d : Dict.t) (ps : list Main.piece) : Prop :=
  forall name, In name (declared ps) -> Dict.get name d <> None.

(** The value lines 75-78 give to the text of a literal. *)
Definition literal_value (lit : str) : result Z :=
  if PyStr.startswith "0x" lit
  then PyInt.int_of 16 lit
  else PyInt.int_of 10 lit.



(** The text of the Version block for a literal. *)
Definition version_block (literal : str) : str :=
  "    // Version" ++ nl
  ++ "    static final int FMOD_VERSION = " ++ literal ++ "; // 2.03.09" ++ nl
  ++ nl.

(** A table whose only entry is the version symbol. *)
Definition version_only (value : Z) : Dict.t :=
  [ ("FMOD_VERSION" : str, value) ].

(** A small merged table: a version, two result codes, an init flag, a
    symbol of the fallback category and one that matches no rule. *)
Definition sample_table : Dict.t :=
  [ ("FMOD_VERSION" : str, 0x00020309);
    ("FMOD_OK" : str, 0);
    ("FMOD_ERR_BADCOMMAND" : str, 1);
    ("FMOD_INIT_NORMAL" : str, 0);
    ("FMOD_LOOP_NORMAL" : str, 2);
    ("OTHER" : str, 7) ].

(* ------------------------------------------------------------------ *)
(** ** Further definitions *)


(** The line is passed over, or holds no assignment, or its value text goes
    to the guarded branch of lines 51-56 (no [0x] in front, no [<<]). *)
Definition guarded_line (raw : str) : bool :=
  match Enum.member_line raw with
  | None => true
  | Some line =>
      match Enum.assignment line with
      | None => true
      | Some (_, value_str) =>
          negb (PyStr.startswith "0x" value_str)
          && negb (PyStr.contains "<<" value_str)
      end
  end.

(** A header with a symbolic value and a value in parentheses. *)
Definition header_guarded : str :=
  "typedef enum E {" ++ nl
  ++ "A = 3," ++ nl
  ++ "B = A + 1," ++ nl
  ++ "C = (4)," ++ nl
  ++ "D" ++ nl
  ++ "} E;".

(** The line feed. *)
Definition LF : ascii := ascii_of_N 10.

(** A name as [parse_enum] records them: not empty, without [=] and without
    line feed, and with no white space at either end. *)
Definition tidy_name (k : str) : Prop :=
  k <> [] /\ ~ In "="%char k /\ ~ In LF k /\ PyStr.strip k = k.

Definition tidy_keys (d : Dict.t) : Prop :=
  forall k, Dict.get k d <> None -> tidy_name k.

(** A character of a decimal literal: a digit or the minus sign. *)
Definition numeric (c : ascii) : bool :=
  PyStr.is_digit c || PyStr.chr_eqb "-" c.

(** The value text [a << b], with white space [w1] and [w2] around the
    operator. *)
Definition shift_text (a b : Z) (w1 w2 : str) : str :=
  PyInt.to_str a ++ w1 ++ "<<" ++ w2 ++ PyInt.to_str b.

(** The enums [main] extracts, in the order of the calls. *)
Definition extracted_enums : list str :=
  ("FMOD_RESULT" : str) :: Scan.enum_names.

(** A header with the result enum, two flags and the version. *)
Definition sample_header : str :=
  "#define FMOD_VERSION    0x00020309" ++ nl
  ++ "typedef unsigned int FMOD_MODE;" ++ nl
  ++ "#define FMOD_DEFAULT    0x00000000" ++ nl
  ++ "#define FMOD_LOOP_OFF   0x00000001" ++ nl
  ++ "typedef enum FMOD_RESULT" ++ nl
  ++ "{" ++ nl
  ++ "    FMOD_OK," ++ nl
  ++ "    FMOD_ERR_BADCOMMAND," ++ nl
  ++ "    FMOD_RESULT_FORCEINT = 65536" ++ nl
  ++ "} FMOD_RESULT;" ++ nl
  ++ "#define FMOD_INIT_NORMAL 0x00000000" ++ nl.

(** The chain of tests of lines 169-189 sends [name] to category [c]. *)
Definition has_category (c name : str) : bool :=
  match Main.category_of name with
  | Some c' => PyStr.eqb c' c
  | None => false
  end.

(** The strings of the list are pairwise different. *)
Fixpoint distinct (l : list str) : bool :=
  match l with
  | [] => true
  | x :: rest => negb (existsb (PyStr.eqb x) rest) && distinct rest
  end.

(** The order of [sorted]. *)
Definition str_le (a b : str) : Prop := Main.str_leb a b = true.

(** In ascending order. *)
Definition ascending (l : list str) : Prop := StronglySorted str_le l.

(** The names of a category once the loop of lines 168-189 is over: those
    the dictionary literal gives it, then the names of the table that the
    chain of tests sends to it, in sorted order. *)
Definition category_names (all_constants : Dict.t) (c : str * list str)
  : str * list str :=
  (fst c,
   snd c ++ filter (has_category (fst c))
              (Main.sorted (Dict.keys all_constants))).

(** The name is in the table. *)
Definition in_table (d : Dict.t) (name : str) : bool := Dict.mem name d.

(** The category a declared name belongs to. *)
Definition belongs (name c : str) : Prop :=
  (name = ("FMOD_VERSION" : str) /\ c = ("Version" : str))
  \/ has_category c name = true.

(** The text that opens the section of the mode flags. *)
Definition mode_typedef : str := "typedef unsigned int FMOD_MODE;".

(** A header where a macro with the mode prefix follows the next typedef. *)
Definition header_modes : str :=
  mode_typedef ++ nl
  ++ "#define FMOD_DEFAULT 0x00000000" ++ nl
  ++ "typedef int FMOD_OTHER;" ++ nl
  ++ "#define FMOD_LATE 0x00000001" ++ nl.

(* ================================================================== *)
(** * Properties of [parse_enum] *)
(* ================================================================== *)

(** C1.  The specification says that [parse_enum] never raises: a member
    whose value is not a parseable literal or shift is skipped.  Only the
    decimal branch is guarded ([try] ... [except] of lines 52-56); in the
    header [header_paren_shift] the value [(1 << 2)] holds a [<<], so line 49
    calls [int("(1")], and [parse_enum] raises [ValueError] instead of
    returning the table of [A] and [C].  So does the value [0xZZ], which
    line 45 hands to [int(_, 16)].  The guarded branch does what the
    specification says: in [header_symbolic] the value [A + 1] is passed
    over and [C] follows [A]. *)
Theorem parse_enum_raises_on_parenthesised_shift :
  parse_enum header_paren_shift "E" = Raise ValueError
  /\ parse_enum header_bad_hex "E" = Raise ValueError
  /\ parse_enum header_symbolic "E" = Ok [ ("A" : str, 1); ("C" : str, 2) ].
Proof. vm_compute. repeat split; reflexivity. Qed.

(** C2 as the specification states it fails: on the one-line text every
    member is on the same line, the text after the first [=] is
    [5, E_ERR_WORSE], which is no integer, so the whole line is passed over
    and the table is empty. *)
Lemma parse_enum_scenario_one_line_is_empty :
  parse_enum scenario_one_line "E_RESULT" = Ok Dict.empty
  /\ parse_enum scenario_one_line "E_RESULT" <> Ok scenario_table.
Proof. split; vm_compute; [reflexivity | discriminate]. Qed.

(** C2, amended: with one member to a line the scenario yields exactly the
    table [{E_OK: 0, E_ERR_BAD: 5, E_ERR_WORSE: 6}]. *)
Theorem parse_enum_scenario_lines :
  parse_enum scenario_lines "E_RESULT" = Ok scenario_table.
Proof. vm_compute. reflexivity. Qed.

(* ------------------------------------------------------------------ *)
(** ** Strings and dictionaries: basic facts *)

Lemma chr_eqb_eq (a b : ascii) : PyStr.chr_eqb a b = true <-> a = b.
Proof. unfold PyStr.chr_eqb. apply Ascii.eqb_eq. Qed.

Lemma str_eqb_eq (s t : str) : PyStr.eqb s t = true <-> s = t.
Proof.
  revert t. induction s as [|a s IH]; intros [|b t]; simpl;
    try (split; [discriminate | discriminate]); try tauto.
  rewrite andb_true_iff, chr_eqb_eq, IH.
  split.
  - intros [-> ->]. reflexivity.
  - intros H. inversion H. auto.
Qed.

Lemma str_eqb_refl (s : str) : PyStr.eqb s s = true.
Proof. apply str_eqb_eq. reflexivity. Qed.

Lemma str_eqb_neq (s t : str) : PyStr.eqb s t = false <-> s <> t.
Proof.
  rewrite <- str_eqb_eq. destruct (PyStr.eqb s t); split; congruence.
Qed.

Lemma get_set (q k : str) (v : Z) (d : Dict.t) :
  Dict.get q (Dict.set k v d) =
  if PyStr.eqb q k then Some v else Dict.get q d.
Proof.
  induction d as [|[k' v'] d IH]; simpl.
  - reflexivity.
  - destruct (PyStr.eqb k k') eqn:Ek; simpl.
    + apply str_eqb_eq in Ek. subst k'.
      destruct (PyStr.eqb q k); reflexivity.
    + rewrite IH.
      destruct (PyStr.eqb q k') eqn:Eq'; [|reflexivity].
      apply str_eqb_eq in Eq'. subst k'.
      destruct (PyStr.eqb q k) eqn:Eqk; [|reflexivity].
      apply str_eqb_eq in Eqk. subst q.
      rewrite str_eqb_refl in Ek. discriminate.
Qed.

Lemma get_set_same (k : str) (v : Z) (d : Dict.t) :
  Dict.get k (Dict.set k v d) = Some v.
Proof. rewrite get_set, str_eqb_refl. reflexivity. Qed.

Lemma get_set_other (q k : str) (v : Z) (d : Dict.t) :
  q <> k -> Dict.get q (Dict.set k v d) = Dict.get q d.
Proof.
  intros H. rewrite get_set.
  apply str_eqb_neq in H. rewrite H. reflexivity.
Qed.

Lemma set_fresh (k : str) (v : Z) (d : Dict.t) :
  Dict.get k d = None -> Dict.set k v d = d ++ [(k, v)].
Proof.
  induction d as [|[k' v'] d IH]; simpl; intros H.
  - reflexivity.
  - destruct (PyStr.eqb k k'); [discriminate|].
    rewrite IH by assumption. reflexivity.
Qed.

Lemma get_app_fresh (q k : str) (v : Z) (d : Dict.t) :
  q <> k -> Dict.get q d = None -> Dict.get q (d ++ [(k, v)]) = None.
Proof.
  intros Hq. induction d as [|[k' v'] d IH]; simpl; intros H.
  - apply str_eqb_neq in Hq. rewrite Hq. reflexivity.
  - destruct (PyStr.eqb q k'); [discriminate|]. auto.
Qed.

Lemma writes_cons (d : Dict.t) (k : str) (v : Z) (kvs : list (str * Z)) :
  writes d ((k, v) :: kvs) = writes (Dict.set k v d) kvs.
Proof. reflexivity. Qed.

Lemma writes_fresh (kvs : list (str * Z)) :
  forall d : Dict.t,
    NoDup (map fst kvs) ->
    (forall k, In k (map fst kvs) -> Dict.get k d = None) ->
    writes d kvs = d ++ kvs.
Proof.
  induction kvs as [|[k v] kvs IH]; intros d Hnd Hfresh.
  - unfold writes, Dict.update. simpl. rewrite app_nil_r. reflexivity.
  - rewrite writes_cons. simpl in Hnd. inversion Hnd as [|? ? Hk Hnd']. subst.
    rewrite set_fresh by (apply Hfresh; left; reflexivity).
    rewrite IH; trivial.
    + rewrite <- app_assoc. reflexivity.
    + intros q Hq. apply get_app_fresh.
      * intros ->. contradiction.
      * apply Hfresh. right. exact Hq.
Qed.

Lemma number_from_names (names : list str) :
  forall n, map fst (number_from n names) = names.
Proof.
  induction names as [|a names IH]; intros n; simpl; [|rewrite IH];
    reflexivity.
Qed.

Lemma number_from_nth (names : list str) :
  forall n i,
    (i < length names)%nat ->
    nth_error (number_from n names) i
    = Some (nth i names [], n + Z.of_nat i).
Proof.
  induction names as [|a names IH]; intros n i Hi; simpl in *.
  - lia.
  - destruct i as [|i]; simpl.
    + rewrite Z.add_0_r. reflexivity.
    + rewrite IH by lia. f_equal. f_equal. lia.
Qed.

(* ------------------------------------------------------------------ *)
(** ** The loop of [parse_enum] *)


Lemma step_implicit (st : Enum.state) (raw line : str) :
  Enum.member_line raw = Some line ->
  PyStr.contains "=" line = false ->
  Enum.step st raw
  = Ok (Enum.record (PyStr.strip line) (Enum.current_value st) st).
Proof.
  intros Hm Hc. unfold Enum.step, Enum.assignment.
  rewrite Hm, Hc. reflexivity.
Qed.

Lemma step_skipped (st : Enum.state) (raw : str) :
  Enum.member_line raw = None -> Enum.step st raw = Ok st.
Proof. intros Hm. unfold Enum.step. rewrite Hm. reflexivity. Qed.

Lemma run_implicit (lines : list str) :
  forall st,
    no_assignment lines = true ->
    Enum.run st lines
    = Ok (Enum.mkState
            (writes (Enum.constants st)
               (number_from (Enum.current_value st) (recorded_names lines)))
            (Enum.current_value st
             + Z.of_nat (length (recorded_names lines)))).
Proof.
  induction lines as [|raw lines IH]; intros [d n] Hno.
  - simpl. rewrite Z.add_0_r. reflexivity.
  - unfold no_assignment in Hno. cbn [forallb] in Hno.
    apply andb_true_iff in Hno. destruct Hno as [Hraw Hno'].
    fold (no_assignment lines) in Hno'.
    cbn [Enum.run recorded_names].
    unfold implicit_line in Hraw.
    destruct (Enum.member_line raw) as [line|] eqn:Hm.
    + apply negb_true_iff in Hraw.
      rewrite (step_implicit _ raw line Hm Hraw).
      unfold Enum.record. cbn [bind Enum.current_value Enum.constants].
      destruct (Enum.recordable (PyStr.strip line)).
      * rewrite IH by exact Hno'.
        cbn [Enum.current_value Enum.constants number_from length].
        rewrite writes_cons. f_equal. f_equal. lia.
      * rewrite IH by exact Hno'. reflexivity.
    + rewrite step_skipped by exact Hm. cbn [bind].
      apply IH. exact Hno'.
Qed.

(** C5.  When no member line of the body holds an assignment token, the
    table [parse_enum] returns is the one built by writing the recorded
    names with the values 0, 1, 2, ... in the order of their lines; when no
    name is declared twice this table lists the names in that order, the
    i-th one with value i. *)
Theorem parse_enum_implicit_values (header_content enum_name enum_body : str) :
  Enum.search enum_name header_content = Some enum_body ->
  no_assignment (lines_of enum_body) = true ->
  parse_enum header_content enum_name
  = Ok (writes Dict.empty
          (number_from 0 (recorded_names (lines_of enum_body))))
  /\ (NoDup (recorded_names (lines_of enum_body)) ->
      parse_enum header_content enum_name
      = Ok (number_from 0 (recorded_names (lines_of enum_body)))
      /\ forall i,
           (i < length (recorded_names (lines_of enum_body)))%nat ->
           nth_error (number_from 0 (recorded_names (lines_of enum_body))) i
           = Some (nth i (recorded_names (lines_of enum_body)) [],
                   Z.of_nat i)).
Proof.
  intros Hs Hno.
  set (names := recorded_names (lines_of enum_body)).
  assert (E : parse_enum header_content enum_name
              = Ok (writes Dict.empty (number_from 0 names))).
  { unfold parse_enum. rewrite Hs. unfold Enum.parse_body.
    change (PyStr.split [ascii_of_N 10] enum_body) with (lines_of enum_body).
    rewrite (run_implicit _ Enum.init Hno). reflexivity. }
  split; [exact E|].
  intros Hnd. split.
  - rewrite E. f_equal.
    rewrite writes_fresh; [reflexivity | | reflexivity].
    rewrite number_from_names. exact Hnd.
  - intros i Hi. rewrite number_from_nth by exact Hi. reflexivity.
Qed.

(** The theorem applies to [header_implicit]: its three members get 0, 1
    and 2, the sentinel is left out.  (The first name keeps its comma:
    line 32 strips the commas at the end of the line before the spaces the
    removed comment leaves there.) *)
Lemma parse_enum_implicit_values_witness :
  parse_enum header_implicit "E_KIND"
  = Ok [ ("E_KIND_A," : str, 0); ("E_KIND_B" : str, 1);
         ("E_KIND_C" : str, 2) ].
Proof.
  pose proof (parse_enum_implicit_values header_implicit "E_KIND"
                (nl
                 ++ "    E_KIND_A,   /* first */" ++ nl
                 ++ "    // a note" ++ nl
                 ++ "    E_KIND_B," ++ nl
                 ++ "    E_KIND_C," ++ nl
                 ++ "    E_KIND_FORCEINT" ++ nl)
                eq_refl eq_refl) as [H _].
  exact H.
Defined.

(* ------------------------------------------------------------------ *)
(** ** Explicit values and the running counter *)




Lemma parse_enum_lines (header_content enum_name enum_body : str) :
  Enum.search enum_name header_content = Some enum_body ->
  parse_enum header_content enum_name
  = (st <- Enum.run Enum.init (lines_of enum_body) ;;
     Ok (Enum.constants st)).
Proof. intros H. unfold parse_enum. rewrite H. reflexivity. Qed.







(* ------------------------------------------------------------------ *)
(** ** The sentinel never enters the table *)





Lemma get_none_not_key (k : str) (d : Dict.t) :
  Dict.get k d = None <-> ~ In k (Dict.keys d).
Proof.
  induction d as [|[k' v] d IH]; simpl.
  - tauto.
  - destruct (PyStr.eqb k k') eqn:E.
    + apply str_eqb_eq in E. subst. split; [discriminate | tauto].
    + apply str_eqb_neq in E. rewrite IH. split.
      * intros H [H' | H']; [congruence | tauto].
      * tauto.
Qed.



(* ================================================================== *)
(** * Properties of [parse_defines] *)
(* ================================================================== *)

Lemma after_prefix_app (p s r : str) :
  PyStr.after_prefix p s = Some r -> s = p ++ r.
Proof.
  revert s. induction p as [|a p IH]; intros [|b s]; simpl; intros H;
    try discriminate; try (inversion H; reflexivity).
  destruct (PyStr.chr_eqb a b) eqn:E; [|discriminate].
  apply chr_eqb_eq in E. subst b. f_equal. auto.
Qed.

Lemma take_drop_while (p : ascii -> bool) (s : str) :
  s = PyStr.take_while p s ++ PyStr.drop_while p s.
Proof.
  induction s as [|c s IH]; simpl; [reflexivity|].
  destruct (p c); simpl; [f_equal; exact IH | reflexivity].
Qed.

Lemma take_while_all (p : ascii -> bool) (s : str) :
  forallb p (PyStr.take_while p s) = true.
Proof.
  induction s as [|c s IH]; simpl; [reflexivity|].
  destruct (p c) eqn:E; simpl; [rewrite E; exact IH | reflexivity].
Qed.


Lemma literal_here_app (decimal : bool) (s lit : str) :
  Defines.literal_here decimal s = Some lit ->
  bare_literal lit = true /\ exists after, s = lit ++ after.
Proof.
  unfold Defines.literal_here. intros H.
  destruct (PyStr.after_prefix "0x" s) as [r|] eqn:Ep.
  - destruct (PyStr.take_while PyStr.is_hex_digit r) as [|c h] eqn:Eh.
    + destruct decimal; [|discriminate].
      destruct (PyStr.take_while PyStr.is_digit s) as [|c d] eqn:Ed;
        inversion H; subst. split.
      * unfold bare_literal. rewrite <- Ed, take_while_all, Ed.
        apply orb_true_r.
      * exists (PyStr.drop_while PyStr.is_digit s). rewrite <- Ed.
        apply take_drop_while.
    + inversion H; subst. split.
      * unfold bare_literal. cbn [PyStr.after_prefix list_ascii_of_string app].
        rewrite !(proj2 (chr_eqb_eq _ _) eq_refl).
        rewrite <- Eh, take_while_all. reflexivity.
      * exists (PyStr.drop_while PyStr.is_hex_digit r).
        apply after_prefix_app in Ep. rewrite Ep at 1.
        change ("0"%char :: "x"%char :: c :: h) with ("0x" ++ c :: h).
        rewrite <- Eh, <- app_assoc.
        f_equal. apply take_drop_while.
  - destruct decimal; [|discriminate].
    destruct (PyStr.take_while PyStr.is_digit s) as [|c d] eqn:Ed;
      inversion H; subst. split.
    + unfold bare_literal. rewrite <- Ed, take_while_all, Ed.
      apply orb_true_r.
    + exists (PyStr.drop_while PyStr.is_digit s). rewrite <- Ed.
      apply take_drop_while.
Qed.


(** Every match [finditer] reports is a match of the pattern at some place
    of the text. *)
Lemma finditer_from_origin (prefix : str) (tail : ascii -> bool)
    (decimal : bool) (m : Defines.define_match) (s : str) :
  forall skip,
    In m (Defines.finditer_from prefix tail decimal skip s) ->
    exists before s',
      s = before ++ s'
      /\ Defines.match_here prefix tail decimal s' = Some m.
Proof.
  induction s as [|c s IH]; intros skip Hin; simpl in Hin; [contradiction|].
  assert (Htail : forall k,
             In m (Defines.finditer_from prefix tail decimal k s) ->
             exists before s',
               c :: s = before ++ s'
               /\ Defines.match_here prefix tail decimal s' = Some m).
  { intros k Hk. destruct (IH k Hk) as (before & s' & -> & Hm).
    exists (c :: before), s'. split; [reflexivity | exact Hm]. }
  destruct skip as [|k]; [|eauto].
  destruct (Defines.match_here prefix tail decimal (c :: s)) as [m'|] eqn:E;
    [|eauto].
  destruct Hin as [<- | Hin]; [|eauto].
  exists [], (c :: s). split; [reflexivity | exact E].
Qed.


(* ------------------------------------------------------------------ *)
(** ** [int()] accepts every bare literal *)

Ltac each_char c H :=
  destruct c as [[] [] [] [] [] [] [] []]; vm_compute in H;
  try discriminate H.

Lemma hex_digit_value (c : ascii) :
  PyStr.is_hex_digit c = true ->
  PyInt.is_underscore c = false
  /\ exists d, PyInt.digit_value c = Some d /\ (d <? 16) = true.
Proof.
  intros H. each_char c H; (split; [reflexivity|]); vm_compute; eauto.
Qed.

Lemma dec_digit_value (c : ascii) :
  PyStr.is_digit c = true ->
  PyInt.is_underscore c = false
  /\ PyInt.int_space c = false
  /\ (PyStr.code c =? 43)%N = false /\ (PyStr.code c =? 45)%N = false
  /\ PyStr.chr_eqb "x" c = false
  /\ exists d, PyInt.digit_value c = Some d /\ (d <? 10) = true.
Proof.
  intros H. each_char c H; repeat (split; [reflexivity|]); vm_compute; eauto.
Qed.

Lemma scan_all_digits (base : Z) (p : ascii -> bool) :
  (forall c, p c = true ->
     PyInt.is_underscore c = false
     /\ exists d, PyInt.digit_value c = Some d /\ (d <? base) = true) ->
  forall s started acc,
    forallb p s = true ->
    started = true \/ s <> [] ->
    exists v, PyInt.scan_digits base started false acc s = Some (v, []).
Proof.
  intros Hp. induction s as [|c s IH]; intros started acc Hall Hne.
  - destruct Hne as [-> | Hne]; [|contradiction].
    simpl. eauto.
  - simpl in Hall. apply andb_true_iff in Hall. destruct Hall as [Hc Hall].
    destruct (Hp c Hc) as [Hu (d & Hd & Hlt)].
    cbn [PyInt.scan_digits]. rewrite Hu, Hd, Hlt.
    apply IH; auto.
Qed.

Lemma literal_value_ok (lit : str) :
  bare_literal lit = true -> exists v, literal_value lit = Ok v.
Proof.
  unfold bare_literal. intros H. apply orb_true_iff in H.
  destruct H as [H | H].
  - destruct (PyStr.after_prefix "0x" lit) as [[|c r]|] eqn:Ep;
      try discriminate.
    apply after_prefix_app in Ep. subst lit.
    cbn [forallb] in H. apply andb_true_iff in H. destruct H as [Hc Hr].
    destruct (hex_digit_value c Hc) as [Hu _].
    destruct (scan_all_digits 16 PyStr.is_hex_digit
                (fun c H => hex_digit_value c H) (c :: r) false 0)
      as [v Hv].
    { cbn [forallb]. rewrite Hc, Hr. reflexivity. }
    { right. discriminate. }
    exists (1 * v). unfold literal_value.
    change (PyStr.startswith "0x" ("0x" ++ c :: r)) with true. cbv iota.
    unfold PyInt.int_of.
    change (PyStr.drop_while PyInt.int_space ("0x" ++ c :: r))
      with ("0x" ++ c :: r).
    change (PyInt.skip_sign ("0x" ++ c :: r)) with (1, "0x" ++ c :: r).
    cbv iota beta.
    change (16 =? 16) with true. cbv iota.
    assert (Es : PyInt.skip_hex_prefix ("0x" ++ c :: r) = c :: r).
    { cbn. rewrite Hu. reflexivity. }
    rewrite Es, Hv. reflexivity.
  - destruct lit as [|c r]; [discriminate|].
    pose proof H as Hall.
    cbn [forallb] in H. apply andb_true_iff in H. destruct H as [Hc Hr].
    destruct (dec_digit_value c Hc) as (Hu & Hsp & Hplus & Hminus & _ & _).
    destruct (scan_all_digits 10 PyStr.is_digit
                (fun c H => let '(conj a (conj _ (conj _ (conj _ (conj _ b)))))
                              := dec_digit_value c H in conj a b)
                (c :: r) false 0 Hall)
      as [v Hv].
    { right. discriminate. }
    exists (1 * v). unfold literal_value.
    assert (E0x : PyStr.startswith "0x" (c :: r) = false).
    { destruct r as [|c' r]; cbn [PyStr.startswith list_ascii_of_string].
      - apply andb_false_r.
      - cbn [forallb] in Hr. apply andb_true_iff in Hr. destruct Hr as [Hc' _].
        destruct (dec_digit_value c' Hc') as (_ & _ & _ & _ & Hx & _).
        rewrite Hx. apply andb_false_r. }
    rewrite E0x. unfold PyInt.int_of.
    cbn [PyStr.drop_while]. rewrite Hsp.
    unfold PyInt.skip_sign. rewrite Hplus, Hminus.
    change (10 =? 16) with false. cbv iota.
    rewrite Hv. reflexivity.
Qed.





(* ================================================================== *)
(** * Properties of the emission *)
(* ================================================================== *)

(* ------------------------------------------------------------------ *)
(** ** Hexadecimal digits *)

Section Digits.

Variable base : N.
Hypothesis base_ge_2 : (2 <= base)%N.

Lemma fixed_digits_length (k : nat) :
  forall n, length (fixed_digits base k n) = k.
Proof using Type.
  induction k as [|k IH]; intros n; simpl; [reflexivity|].
  rewrite length_app, IH. apply Nat.add_1_r.
Qed.

Lemma fixed_digits_zero (k : nat) :
  fixed_digits base k 0 = repeat "0"%char k.
Proof using Type.
  induction k as [|k IH]; [reflexivity|].
  cbn [fixed_digits]. rewrite N.Div0.div_0_l, N.Div0.mod_0_l, IH.
  change [PyInt.digit_chr 0] with ["0"%char].
  rewrite <- repeat_cons. reflexivity.
Qed.

Lemma fixed_digits_split (j k : nat) :
  forall n,
    fixed_digits base (j + k) n
    = fixed_digits base j (n / base ^ N.of_nat k) ++ fixed_digits base k n.
Proof using Type.
  induction k as [|k IH]; intros n.
  - rewrite Nat.add_0_r. change (base ^ N.of_nat 0)%N with (base ^ 0)%N.
    rewrite N.pow_0_r, N.div_1_r, app_nil_r. reflexivity.
  - rewrite Nat.add_succ_r. cbn [fixed_digits]. rewrite IH, app_assoc.
    rewrite N.Div0.div_div.
    replace (base * base ^ N.of_nat k)%N with (base ^ N.of_nat (S k))%N
      by (rewrite Nat2N.inj_succ, N.pow_succ_r'; reflexivity).
    reflexivity.
Qed.

Lemma fixed_digits_pad (j k : nat) (n : N) :
  (n < base ^ N.of_nat k)%N ->
  repeat "0"%char j ++ fixed_digits base k n = fixed_digits base (j + k) n.
Proof using Type.
  intros H. rewrite fixed_digits_split, N.div_small by exact H.
  rewrite fixed_digits_zero. reflexivity.
Qed.

Lemma digits_from_S (f : nat) (n : N) (acc : str) :
  PyInt.digits_from (S f) base n acc
  = if (n / base =? 0)%N then PyInt.digit_chr (n mod base) :: acc
    else PyInt.digits_from f base (n / base)
           (PyInt.digit_chr (n mod base) :: acc).
Proof using Type. reflexivity. Qed.

(** With enough fuel the digits produced are those of the shortest
    fixed-width writing. *)
Lemma digits_from_fixed (f : nat) :
  forall n acc,
    (n < base ^ N.of_nat (S f))%N ->
    exists k,
      (1 <= k <= S f)%nat
      /\ PyInt.digits_from (S f) base n acc = fixed_digits base k n ++ acc
      /\ (n < base ^ N.of_nat k)%N
      /\ (k = 1%nat \/ (base ^ N.of_nat (k - 1) <= n)%N).
Proof using base_ge_2.
  assert (Hb : base <> 0%N) by lia.
  induction f as [|f IH]; intros n acc Hn.
  - exists 1%nat. change (N.of_nat 1) with 1%N in *.
    rewrite N.pow_1_r in *.
    rewrite digits_from_S, (N.div_small n base) by exact Hn.
    repeat split; auto.
  - rewrite digits_from_S.
    destruct (n / base =? 0)%N eqn:E.
    + apply N.eqb_eq in E. exists 1%nat.
      apply N.div_small_iff in E; [|exact Hb].
      change (N.of_nat 1) with 1%N. rewrite N.pow_1_r.
      repeat split; auto; lia.
    + apply N.eqb_neq in E.
      assert (Hq : (n / base < base ^ N.of_nat (S f))%N).
      { apply N.Div0.div_lt_upper_bound.
        rewrite <- N.pow_succ_r', <- Nat2N.inj_succ. exact Hn. }
      destruct (IH (n / base)%N (PyInt.digit_chr (n mod base) :: acc) Hq)
        as (k & Hk & Hd & Hlt & Hmin).
      exists (S k). split; [lia|]. split; [|split].
      * rewrite Hd. cbn [fixed_digits]. rewrite <- app_assoc. reflexivity.
      * rewrite Nat2N.inj_succ, N.pow_succ_r'.
        pose proof (N.mul_succ_div_gt n base Hb) as Hg. nia.
      * right. replace (S k - 1)%nat with k by lia.
        assert (Hbn : (base <= n)%N).
        { destruct (N.lt_ge_cases n base) as [Hs | Hs]; [|exact Hs].
          apply N.div_small in Hs. contradiction. }
        destruct Hmin as [-> | Hmin].
        { change (N.of_nat 1) with 1%N. rewrite N.pow_1_r. exact Hbn. }
        replace k with (S (k - 1)) at 1 by lia.
        rewrite Nat2N.inj_succ, N.pow_succ_r'.
        pose proof (N.Div0.mul_div_le n base) as Hle. nia.
Qed.

Lemma digits_fuel (n : N) :
  (n < base ^ N.of_nat (S (N.to_nat (N.log2 n))))%N.
Proof using base_ge_2.
  rewrite Nat2N.inj_succ, N2Nat.id.
  destruct n as [|p].
  - apply N.neq_0_lt_0, N.pow_nonzero. lia.
  - destruct (N.log2_spec (N.pos p)) as [_ Hlt]; [reflexivity|].
    eapply N.lt_le_trans; [exact Hlt|].
    apply N.pow_le_mono_l. exact base_ge_2.
Qed.

(** [digits] writes [n] with the least number of digits, one at least. *)
Lemma digits_fixed (n : N) :
  exists k,
    (1 <= k)%nat
    /\ PyInt.digits base n = fixed_digits base k n
    /\ (n < base ^ N.of_nat k)%N
    /\ (k = 1%nat \/ (base ^ N.of_nat (k - 1) <= n)%N).
Proof using base_ge_2.
  unfold PyInt.digits.
  destruct (digits_from_fixed (N.to_nat (N.log2 n)) n [] (digits_fuel n))
    as (k & Hk & Hd & Hlt & Hmin).
  exists k. rewrite Hd, app_nil_r. repeat split; auto; lia.
Qed.

End Digits.

(** A value of 32 bits is written with exactly eight digits. *)
Lemma base_16_ge_2 : (2 <= 16)%N.
Proof. discriminate. Qed.

Lemma base_10_ge_2 : (2 <= 10)%N.
Proof. discriminate. Qed.


(* ------------------------------------------------------------------ *)
(** ** Reading a literal back *)

Lemma digit_chr_facts (d : N) :
  (d < 16)%N ->
  PyInt.digit_value (PyInt.digit_chr d) = Some (Z.of_N d)
  /\ PyInt.is_underscore (PyInt.digit_chr d) = false
  /\ PyInt.int_space (PyInt.digit_chr d) = false
  /\ (PyStr.code (PyInt.digit_chr d) =? 43)%N = false
  /\ (PyStr.code (PyInt.digit_chr d) =? 45)%N = false.
Proof.
  intros H.
  assert (E : (d = 0 \/ d = 1 \/ d = 2 \/ d = 3 \/ d = 4 \/ d = 5 \/ d = 6
               \/ d = 7 \/ d = 8 \/ d = 9 \/ d = 10 \/ d = 11 \/ d = 12
               \/ d = 13 \/ d = 14 \/ d = 15)%N) by lia.
  repeat (destruct E as [-> | E]); try subst d; vm_compute; auto.
Qed.

Section ReadBack.

Variable base : N.
Hypothesis base_ge_2 : (2 <= base)%N.
Hypothesis base_le_16 : (base <= 16)%N.

Lemma digit_lt_base (n : N) : (n mod base < 16)%N.
Proof using base_ge_2 base_le_16.
  pose proof (N.mod_lt n base ltac:(lia)). lia.
Qed.

Lemma scan_fixed (k : nat) :
  forall n started acc r,
    (n < base ^ N.of_nat k)%N ->
    PyInt.scan_digits (Z.of_N base) started false acc
      (fixed_digits base k n ++ r)
    = PyInt.scan_digits (Z.of_N base)
        (started || negb (Nat.eqb k 0)) false
        (acc * Z.of_N base ^ Z.of_nat k + Z.of_N n) r.
Proof using base_ge_2 base_le_16.
  induction k as [|k IH]; intros n started acc r Hn.
  - change (base ^ N.of_nat 0)%N with (base ^ 0)%N in Hn.
    rewrite N.pow_0_r in Hn.
    assert (n = 0%N) by lia. subst n.
    cbn [fixed_digits app Nat.eqb negb]. rewrite orb_false_r.
    f_equal. change (Z.of_nat 0) with 0. rewrite Z.pow_0_r. lia.
  - cbn [fixed_digits Nat.eqb negb]. rewrite orb_true_r, <- app_assoc.
    assert (Hq : (n / base < base ^ N.of_nat k)%N).
    { apply N.Div0.div_lt_upper_bound.
      rewrite <- N.pow_succ_r', <- Nat2N.inj_succ. exact Hn. }
    rewrite (IH _ _ _ _ Hq).
    destruct (digit_chr_facts (n mod base) (digit_lt_base n))
      as (Hv & Hu & _).
    cbn [app PyInt.scan_digits]. rewrite Hu, Hv.
    assert (Hlt : (Z.of_N (n mod base) <? Z.of_N base) = true).
    { apply Z.ltb_lt. pose proof (N.mod_lt n base ltac:(lia)). lia. }
    rewrite Hlt. f_equal.
    rewrite Nat2Z.inj_succ, Z.pow_succ_r by lia.
    pose proof (N.Div0.div_mod n base) as Hdm.
    assert (Hz : Z.of_N n
                 = Z.of_N base * Z.of_N (n / base) + Z.of_N (n mod base))
      by lia.
    rewrite Hz. ring.
Qed.

Lemma fixed_head (k : nat) :
  forall n, exists d rest,
    (d < 16)%N /\ fixed_digits base (S k) n = PyInt.digit_chr d :: rest.
Proof using base_ge_2 base_le_16.
  induction k as [|k IH]; intros n.
  - exists (n mod base)%N, []. split; [apply digit_lt_base | reflexivity].
  - destruct (IH (n / base)%N) as (d & rest & Hd & E).
    exists d, (rest ++ [PyInt.digit_chr (n mod base)]).
    split; [exact Hd|].
    change (fixed_digits base (S (S k)) n)
      with (fixed_digits base (S k) (n / base)
            ++ [PyInt.digit_chr (n mod base)]).
    rewrite E. reflexivity.
Qed.

(** Scanning a whole fixed-width writing gives back the number. *)
Lemma scan_fixed_all (k : nat) (n : N) :
  (n < base ^ N.of_nat (S k))%N ->
  PyInt.scan_digits (Z.of_N base) false false 0 (fixed_digits base (S k) n)
  = Some (Z.of_N n, []).
Proof using base_ge_2 base_le_16.
  intros Hn.
  rewrite <- (app_nil_r (fixed_digits base (S k) n)).
  rewrite (scan_fixed (S k) n false 0 [] Hn).
  cbn [Nat.eqb negb orb PyInt.scan_digits andb].
  rewrite Z.mul_0_l, Z.add_0_l. reflexivity.
Qed.

End ReadBack.

(** [int(str(v))] is [v]. *)
Lemma int_of_to_str (v : Z) : PyInt.int_of 10 (PyInt.to_str v) = Ok v.
Proof.
  unfold PyInt.to_str.
  destruct (digits_fixed 10 base_10_ge_2 (Z.abs_N v))
    as (k & Hk & -> & Hlt & _).
  destruct k as [|k]; [lia|].
  destruct (fixed_head 10 base_10_ge_2 ltac:(discriminate) k (Z.abs_N v))
    as (d & rest & Hd & E).
  destruct (digit_chr_facts d Hd) as (_ & _ & Hsp & Hplus & Hminus).
  pose proof (scan_fixed_all 10 base_10_ge_2 ltac:(discriminate) k
                (Z.abs_N v) Hlt) as Hscan.
  change (Z.of_N 10) with 10 in Hscan.
  destruct (v <? 0) eqn:Hneg.
  - unfold PyInt.int_of.
    change (PyStr.drop_while PyInt.int_space
              ("-" ++ fixed_digits 10 (S k) (Z.abs_N v)))
      with ("-" ++ fixed_digits 10 (S k) (Z.abs_N v)).
    change (PyInt.skip_sign ("-" ++ fixed_digits 10 (S k) (Z.abs_N v)))
      with (-1, fixed_digits 10 (S k) (Z.abs_N v)).
    cbv iota beta. change (10 =? 16) with false. cbv iota.
    rewrite Hscan. cbn [PyStr.drop_while].
    apply Z.ltb_lt in Hneg. f_equal. rewrite N2Z.inj_abs_N. lia.
  - unfold PyInt.int_of. rewrite E.
    cbn [PyStr.drop_while]. rewrite Hsp.
    unfold PyInt.skip_sign. rewrite Hplus, Hminus.
    change (10 =? 16) with false. cbv iota.
    rewrite <- E, Hscan. cbn [PyStr.drop_while].
    apply Z.ltb_ge in Hneg. f_equal. rewrite N2Z.inj_abs_N. lia.
Qed.

(** [int(literal, 16)] is the value, for the hexadecimal literal of a value
    that is not negative. *)
Lemma int_of_hex_literal (v : Z) :
  0 <= v -> PyInt.int_of 16 (Main.hex_literal v) = Ok v.
Proof.
  intros H0. unfold Main.hex_literal, PyInt.format_08X.
  assert (Hs : (v <? 0) = false) by (apply Z.ltb_ge; exact H0).
  rewrite Hs. cbn [list_ascii_of_string app length].
  destruct (digits_fixed 16 base_16_ge_2 (Z.abs_N v))
    as (k & Hk & -> & Hlt & _).
  rewrite fixed_digits_length, Nat.sub_0_r.
  rewrite (fixed_digits_pad 16 (8 - k) k _ Hlt).
  assert (Hlt' : (Z.abs_N v < 16 ^ N.of_nat (8 - k + k))%N).
  { eapply N.lt_le_trans; [exact Hlt|].
    apply N.pow_le_mono_r; [discriminate | lia]. }
  destruct (8 - k + k)%nat as [|K] eqn:EK; [lia|].
  destruct (fixed_head 16 base_16_ge_2 ltac:(discriminate) K (Z.abs_N v))
    as (d & rest & Hd & E).
  destruct (digit_chr_facts d Hd) as (_ & Hu & _).
  pose proof (scan_fixed_all 16 base_16_ge_2 ltac:(discriminate) K
                (Z.abs_N v) Hlt') as Hscan.
  change (Z.of_N 16) with 16 in Hscan.
  unfold PyInt.int_of.
  change (PyStr.drop_while PyInt.int_space
            ("0"%char :: "x"%char :: fixed_digits 16 (S K) (Z.abs_N v)))
    with ("0"%char :: "x"%char :: fixed_digits 16 (S K) (Z.abs_N v)).
  change (PyInt.skip_sign
            ("0"%char :: "x"%char :: fixed_digits 16 (S K) (Z.abs_N v)))
    with (1, "0"%char :: "x"%char :: fixed_digits 16 (S K) (Z.abs_N v)).
  cbv iota beta. change (16 =? 16) with true. cbv iota.
  assert (Ep : PyInt.skip_hex_prefix
                 ("0"%char :: "x"%char :: fixed_digits 16 (S K) (Z.abs_N v))
               = fixed_digits 16 (S K) (Z.abs_N v)).
  { rewrite E. cbn. rewrite Hu. reflexivity. }
  rewrite Ep, Hscan. cbn [PyStr.drop_while].
  f_equal. rewrite N2Z.inj_abs_N. lia.
Qed.

(* ------------------------------------------------------------------ *)
(** ** The emission loop *)

Lemma emit_name_present (category name : str) (d : Dict.t) (value : Z) :
  Dict.get name d = Some value ->
  Main.emit_name category d name
  = Ok [Main.Decl name (Main.value_str category value)
          (PyStr.eqb name "FMOD_VERSION")].
Proof.
  intros H. unfold Main.emit_name, Dict.mem, Dict.getitem. rewrite H.
  reflexivity.
Qed.

Lemma emit_name_absent (category name : str) (d : Dict.t) :
  Dict.get name d = None -> Main.emit_name category d name = Ok [].
Proof.
  intros H. unfold Main.emit_name, Dict.mem. rewrite H. reflexivity.
Qed.

Lemma declared_app (ps qs : list Main.piece) :
  declared (ps ++ qs) = declared ps ++ declared qs.
Proof.
  induction ps as [|[c|n l a|] ps IH]; simpl; congruence.
Qed.

Lemma declares_keys_app (d : Dict.t) (ps qs : list Main.piece) :
  declares_keys d ps -> declares_keys d qs -> declares_keys d (ps ++ qs).
Proof.
  intros Hp Hq name Hin. rewrite declared_app in Hin.
  apply in_app_or in Hin. destruct Hin; auto.
Qed.

Lemma emit_names_ok (category : str) (d : Dict.t) (names : list str) :
  exists ps,
    Main.emit_names category d names = Ok ps /\ declares_keys d ps.
Proof.
  induction names as [|name names (ps & Hps & Hk)]; simpl.
  - exists []. split; [reflexivity | intros ? []].
  - destruct (Dict.get name d) as [value|] eqn:E.
    + rewrite (emit_name_present _ _ _ _ E), Hps. cbn [bind].
      eexists. split; [reflexivity|].
      apply declares_keys_app; [|exact Hk].
      intros n [<- | []]. congruence.
    + rewrite (emit_name_absent _ _ _ E), Hps. cbn [bind].
      exists ps. split; [reflexivity | exact Hk].
Qed.

Lemma emit_names_skip (category name : str) (d : Dict.t)
    (names1 names2 : list str) :
  Dict.get name d = None ->
  Main.emit_names category d (names1 ++ name :: names2)
  = Main.emit_names category d (names1 ++ names2).
Proof.
  intros H. induction names1 as [|n names1 IH]; simpl.
  - rewrite (emit_name_absent _ _ _ H). cbn [bind].
    destruct (Main.emit_names category d names2); reflexivity.
  - rewrite IH. reflexivity.
Qed.

Lemma emit_category_ok (d : Dict.t) (c : str * list str) :
  exists ps, Main.emit_category d c = Ok ps /\ declares_keys d ps.
Proof.
  unfold Main.emit_category. destruct (snd c) as [|n ns] eqn:E.
  - exists []. split; [reflexivity | intros ? []].
  - destruct (emit_names_ok (fst c) d (n :: ns)) as (ps & -> & Hk).
    cbn [bind]. eexists. split; [reflexivity|].
    intros name Hin. cbn [declared] in Hin. rewrite declared_app in Hin.
    apply in_app_or in Hin. destruct Hin as [Hin | []]. auto.
Qed.

Lemma emit_categories_ok (d : Dict.t) (cats : Main.categories_t) :
  exists ps, Main.emit_categories d cats = Ok ps /\ declares_keys d ps.
Proof.
  induction cats as [|c cats (ps & Hps & Hk)]; simpl.
  - exists []. split; [reflexivity | intros ? []].
  - destruct (emit_category_ok d c) as (p & -> & Hp). rewrite Hps.
    cbn [bind]. eexists. split; [reflexivity|].
    apply declares_keys_app; assumption.
Qed.

Lemma category_of_not_version (name c : str) :
  Main.category_of name = Some c -> PyStr.eqb c "Version" = false.
Proof.
  unfold Main.category_of.
  repeat match goal with
         | |- context [if ?b then _ else _] => destruct b
         end;
    intros H; inversion H; reflexivity.
Qed.

Lemma categorize_keeps_version (names : list str) :
  forall (l : list str) (rest : Main.categories_t),
  exists rest',
    fold_left Main.categorize_one names (("Version" : str, l) :: rest)
    = ("Version" : str, l) :: rest'.
Proof.
  induction names as [|name names IH]; intros l rest; cbn [fold_left].
  - eauto.
  - unfold Main.categorize_one at 2.
    destruct (Main.category_of name) as [c|] eqn:E; [|apply IH].
    cbn [Main.append_to]. rewrite (category_of_not_version _ _ E).
    apply IH.
Qed.

Lemma categorize_version (d : Dict.t) :
  exists rest,
    Main.categorize d = ("Version" : str, ["FMOD_VERSION" : str]) :: rest.
Proof. unfold Main.categorize, Main.categories0. apply categorize_keeps_version. Qed.

(** The pieces always exist, and start with the Version block. *)
Lemma pieces_shape (d : Dict.t) :
  exists v_decl rest,
    Main.emit_name "Version" d "FMOD_VERSION" = Ok v_decl
    /\ declares_keys d rest
    /\ Main.pieces d
       = Ok (Main.Comment "Version" :: v_decl ++ Main.Blank :: rest).
Proof.
  unfold Main.pieces. destruct (categorize_version d) as [cats ->].
  cbn [Main.emit_categories Main.emit_category snd fst Main.emit_names].
  destruct (emit_categories_ok d cats) as (rest & -> & Hrest).
  destruct (Dict.get "FMOD_VERSION" d) as [value|] eqn:E.
  - rewrite (emit_name_present _ _ _ _ E). cbn [bind].
    eexists. exists rest.
    split; [reflexivity|]. split; [exact Hrest | reflexivity].
  - rewrite (emit_name_absent _ _ _ E). cbn [bind].
    exists [], rest.
    split; [reflexivity|]. split; [exact Hrest | reflexivity].
Qed.

Lemma java_code_of_pieces (d : Dict.t) (ps : list Main.piece) :
  Main.pieces d = Ok ps ->
  Main.java_code d
  = Ok (Main.java_header ++ concat (map Main.render ps) ++ "}" ++ nl).
Proof. intros H. unfold Main.java_code. rewrite H. reflexivity. Qed.


(* ------------------------------------------------------------------ *)
(** ** The version symbol *)

Lemma render_version_block (literal : str) (rest : list Main.piece) :
  concat (map Main.render
            (Main.Comment "Version"
             :: Main.Decl "FMOD_VERSION" literal true :: Main.Blank :: rest))
  = version_block literal ++ concat (map Main.render rest).
Proof.
  cbn [map concat Main.render]. unfold version_block, nl.
  repeat rewrite <- app_assoc. reflexivity.
Qed.

(** C3 as the specification states it fails.  The literal of the version
    symbol follows the general rule, and [Version] is none of the flag
    categories: the value 16 is written [16], not [0x00000010].  The
    annotation is the fixed text [2.03.09], whatever the value: it is the
    same for the value [0x00010203]. *)
Lemma version_literal_small_is_decimal :
  Dict.get "FMOD_VERSION" (version_only 16) = Some 16
  /\ Main.java_code (version_only 16)
     = Ok (Main.java_header ++ version_block "16" ++ "}" ++ nl)
  /\ ("16" : str) <> Main.hex_literal 16
  /\ Main.java_code (version_only 0x00010203)
     = Ok (Main.java_header ++ version_block "0x00010203" ++ "}" ++ nl).
Proof. vm_compute. repeat split; discriminate. Qed.

(** C3, amended.  Whenever the merged table holds [FMOD_VERSION], the text
    starts with the Version block, which declares it with the literal of
    the general rule (eight hexadecimal digits from [0x100] on, decimal
    below) and with the fixed annotation [// 2.03.09]. *)
Theorem version_declaration (all_constants : Dict.t) (value : Z) :
  Dict.get "FMOD_VERSION" all_constants = Some value ->
  exists rest,
    Main.pieces all_constants
    = Ok (Main.Comment "Version"
          :: Main.Decl "FMOD_VERSION" (Main.value_str "Version" value) true
          :: Main.Blank :: rest)
    /\ Main.java_code all_constants
       = Ok (Main.java_header
             ++ version_block (Main.value_str "Version" value)
             ++ concat (map Main.render rest) ++ "}" ++ nl)
    /\ (0x100 <= value ->
        Main.value_str "Version" value = Main.hex_literal value)
    /\ (0 <= value < 0x100 ->
        Main.value_str "Version" value = PyInt.to_str value).
Proof.
  intros Hget.
  destruct (pieces_shape all_constants) as (v_decl & rest & Hv & _ & Hps).
  assert (Hv' : Main.emit_name "Version" all_constants "FMOD_VERSION"
               = Ok [Main.Decl "FMOD_VERSION"
                       (Main.value_str "Version" value) true])
    by exact (emit_name_present _ _ _ _ Hget).
  assert (Ev : v_decl
               = [Main.Decl "FMOD_VERSION"
                    (Main.value_str "Version" value) true])
    by congruence.
  subst v_decl.
  assert (Hps' : Main.pieces all_constants
                 = Ok (Main.Comment "Version"
                       :: Main.Decl "FMOD_VERSION"
                            (Main.value_str "Version" value) true
                       :: Main.Blank :: rest))
    by exact Hps.
  exists rest. split; [exact Hps'|]. split; [|split].
  - rewrite (java_code_of_pieces _ _ Hps'), render_version_block.
    rewrite <- app_assoc. reflexivity.
  - intros H. unfold Main.value_str.
    destruct (0x1000000 <=? value); [reflexivity|].
    apply Z.leb_le in H. rewrite H. reflexivity.
  - intros [H0 H]. unfold Main.value_str.
    assert (H1 : (0x1000000 <=? value) = false) by (apply Z.leb_gt; lia).
    assert (H2 : (0x100 <=? value) = false) by (apply Z.leb_gt; lia).
    rewrite H1, H2. reflexivity.
Qed.

(** The theorem applies to [sample_table], whose version is [0x00020309]. *)
Lemma version_declaration_witness :
  exists rest,
    Main.pieces sample_table
    = Ok (Main.Comment "Version"
          :: Main.Decl "FMOD_VERSION" "0x00020309" true
          :: Main.Blank :: rest).
Proof.
  destruct (version_declaration sample_table 0x00020309 eq_refl)
    as (rest & H & _).
  exists rest. exact H.
Defined.

(* ------------------------------------------------------------------ *)
(** ** The literal of a declaration *)



(* ------------------------------------------------------------------ *)
(** ** Names that the table lacks *)

(** C9.  For every merged table the emission succeeds, and a name the table
    lacks is declared nowhere: in the loop over the names of a category
    such a name adds nothing (dropping it from the list changes nothing).
    When [FMOD_VERSION] is missing, which is the case after lines 149-151
    if the table did not hold it and the headers have no such definition,
    the Version block holds its comment line and a blank line only. *)
Theorem absent_name_emits_nothing (all_constants : Dict.t) :
  exists ps,
    Main.pieces all_constants = Ok ps
    /\ Main.java_code all_constants
       = Ok (Main.java_header ++ concat (map Main.render ps) ++ "}" ++ nl)
    /\ (forall name,
          Dict.get name all_constants = None -> ~ In name (declared ps))
    /\ (forall category name names1 names2,
          Dict.get name all_constants = None ->
          Main.emit_names category all_constants (names1 ++ name :: names2)
          = Main.emit_names category all_constants (names1 ++ names2))
    /\ (Dict.get "FMOD_VERSION" all_constants = None ->
        (exists rest,
           ps = Main.Comment "Version" :: Main.Blank :: rest)
        /\ forall fmod_common,
             Main.version_match fmod_common = None ->
             Main.add_version fmod_common all_constants = Ok all_constants).
Proof.
  destruct (pieces_shape all_constants) as (v_decl & rest & Hv & Hrest & Hps).
  exists (Main.Comment "Version" :: v_decl ++ Main.Blank :: rest).
  split; [exact Hps|]. split; [apply java_code_of_pieces; exact Hps|].
  split; [|split].
  - intros name Hnone Hin.
    cbn [declared] in Hin. rewrite declared_app in Hin. cbn [declared] in Hin.
    apply in_app_or in Hin. destruct Hin as [Hin | Hin].
    + unfold Main.emit_name, Dict.mem, Dict.getitem in Hv.
      destruct (Dict.get "FMOD_VERSION" all_constants) as [value|] eqn:E;
        cbn [negb bind] in Hv; inversion Hv; subst v_decl.
      * destruct Hin as [<- | []]. congruence.
      * destruct Hin.
    + apply (Hrest name Hin). exact Hnone.
  - intros category name names1 names2 Hnone.
    apply emit_names_skip. exact Hnone.
  - intros Hnone. split.
    + rewrite (emit_name_absent _ _ _ Hnone) in Hv. inversion Hv; subst.
      exists rest. reflexivity.
    + intros fmod_common Hm. unfold Main.add_version. rewrite Hm.
      reflexivity.
Qed.

(** A table without version symbol: the Version block is a comment line and
    a blank line. *)
Example java_code_without_version :
  Main.java_code [ ("FMOD_OK" : str, 0) ]
  = Ok (Main.java_header
        ++ "    // Version" ++ nl
        ++ nl
        ++ "    // Result codes" ++ nl
        ++ "    static final int FMOD_OK = 0;" ++ nl
        ++ nl
        ++ "}" ++ nl).
Proof. vm_compute. reflexivity. Qed.

(* ================================================================== *)
(** * Further properties of [parse_enum] *)
(* ================================================================== *)


Lemma contains_cons (sub s : str) (c : ascii) :
  PyStr.contains sub (c :: s) = false -> PyStr.contains sub s = false.
Proof.
  simpl. intros H. apply orb_false_iff in H. apply H.
Qed.


Lemma contains_head (sub s : str) :
  PyStr.contains sub s = false -> PyStr.startswith sub s = false.
Proof.
  destruct s; simpl; intros H; apply orb_false_iff in H; apply H.
Qed.











(* ------------------------------------------------------------------ *)
(** ** When [parse_enum] cannot raise *)

Lemma eval_value_guarded (value_str : str) :
  PyStr.startswith "0x" value_str = false ->
  PyStr.contains "<<" value_str = false ->
  exists r, Enum.eval_value value_str = Ok r.
Proof.
  intros H0 H1. unfold Enum.eval_value. rewrite H0, H1.
  destruct (PyInt.int_of 10 value_str); eauto.
Qed.

Lemma step_guarded (st : Enum.state) (raw : str) :
  guarded_line raw = true -> exists st', Enum.step st raw = Ok st'.
Proof.
  unfold guarded_line, Enum.step. intros H.
  destruct (Enum.member_line raw) as [line|]; [|eauto].
  destruct (Enum.assignment line) as [[name value_str]|]; [|eauto].
  apply andb_true_iff in H. destruct H as [H0 H1].
  apply negb_true_iff in H0. apply negb_true_iff in H1.
  destruct (eval_value_guarded _ H0 H1) as [[v|] ->]; cbn [bind]; eauto.
Qed.

Lemma run_guarded (lines : list str) :
  forall st,
    forallb guarded_line lines = true -> exists st', Enum.run st lines = Ok st'.
Proof.
  induction lines as [|raw lines IH]; intros st H; simpl in *.
  - eauto.
  - apply andb_true_iff in H. destruct H as [Hraw Hrest].
    destruct (step_guarded st raw Hraw) as [st1 ->]. cbn [bind].
    apply IH. exact Hrest.
Qed.

(** X3.  [parse_enum] can raise only on a member whose value text starts
    with [0x] or holds [<<]: when no member line of the body has such a
    value, a table is returned, whatever else the lines hold. *)
Theorem parse_enum_guarded (header_content enum_name enum_body : str) :
  Enum.search enum_name header_content = Some enum_body ->
  forallb guarded_line (lines_of enum_body) = true ->
  exists table, parse_enum header_content enum_name = Ok table.
Proof.
  intros Hs Hg. rewrite (parse_enum_lines _ _ _ Hs).
  destruct (run_guarded _ Enum.init Hg) as [st ->]. cbn [bind]. eauto.
Qed.

(** In [header_guarded] the symbolic value and the one in parentheses are
    passed over; the counter goes on from 3. *)
Lemma parse_enum_guarded_witness :
  exists table,
    parse_enum header_guarded "E" = Ok table
    /\ table = [ ("A" : str, 3); ("D" : str, 4) ].
Proof.
  destruct (parse_enum_guarded header_guarded "E"
              (nl ++ "A = 3," ++ nl ++ "B = A + 1," ++ nl
               ++ "C = (4)," ++ nl ++ "D" ++ nl)
              eq_refl eq_refl) as [table H].
  exists table. split; [exact H|].
  vm_compute in H. inversion H. reflexivity.
Defined.

(* ------------------------------------------------------------------ *)
(** ** The names [parse_enum] records *)

Lemma drop_while_In (p : ascii -> bool) (c : ascii) (s : str) :
  In c (PyStr.drop_while p s) -> In c s.
Proof.
  induction s as [|x s IH]; simpl; [auto|].
  destruct (p x); simpl; auto.
Qed.

Lemma rstrip_In (c : ascii) (s : str) : In c (PyStr.rstrip s) -> In c s.
Proof.
  unfold PyStr.rstrip. intros H. apply in_rev in H.
  apply drop_while_In in H. apply in_rev. exact H.
Qed.

Lemma strip_In (c : ascii) (s : str) : In c (PyStr.strip s) -> In c s.
Proof.
  unfold PyStr.strip, PyStr.lstrip. intros H.
  apply rstrip_In in H. apply drop_while_In in H. exact H.
Qed.

Lemma rstrip_chr_In (x c : ascii) (s : str) :
  In c (PyStr.rstrip_chr x s) -> In c s.
Proof.
  unfold PyStr.rstrip_chr. intros H. apply in_rev in H.
  apply drop_while_In in H. apply in_rev. exact H.
Qed.

Lemma cut_before_In (sub s b a : str) (c : ascii) :
  PyStr.cut sub s = Some (b, a) -> In c b -> In c s.
Proof.
  revert b a. induction s as [|x s IH]; intros b a H Hin.
  - cbn [PyStr.cut] in H.
    destruct (PyStr.after_prefix sub []); inversion H; subst. destruct Hin.
  - cbn [PyStr.cut] in H.
    destruct (PyStr.after_prefix sub (x :: s)).
    + inversion H; subst. destruct Hin.
    + destruct (PyStr.cut sub s) as [[b' a']|]; [|discriminate].
      inversion H; subst. destruct Hin as [-> | Hin].
      * left. reflexivity.
      * right. eapply IH; eauto.
Qed.

Lemma sub_line_comment_In (c : ascii) (line : str) :
  In c (Enum.sub_line_comment line) -> In c line.
Proof.
  unfold Enum.sub_line_comment.
  destruct (PyStr.cut "//" line) as [[b a]|] eqn:E; [|auto].
  apply (cut_before_In _ _ _ _ _ E).
Qed.

Lemma sub_block_comment_from_In (c : ascii) (s : str) :
  forall skip, In c (Enum.sub_block_comment_from skip s) -> In c s.
Proof.
  induction s as [|x s IH]; intros skip H; cbn [Enum.sub_block_comment_from] in H.
  - exact H.
  - destruct skip as [|k].
    + destruct (PyStr.startswith "/*" (x :: s)).
      * destruct (Enum.close_len (tl s)).
        -- right. eapply IH; eauto.
        -- destruct H as [-> | H]; [left; reflexivity | right; eapply IH; eauto].
      * destruct H as [-> | H]; [left; reflexivity | right; eapply IH; eauto].
    + right. eapply IH; eauto.
Qed.

Lemma clean_In (c : ascii) (line : str) :
  In c (Enum.clean line) -> In c line.
Proof.
  unfold Enum.clean, Enum.sub_block_comment. intros H.
  apply strip_In, rstrip_chr_In, sub_block_comment_from_In,
    sub_line_comment_In in H.
  exact H.
Qed.

Lemma member_line_In (c : ascii) (raw line : str) :
  Enum.member_line raw = Some line -> In c line -> In c raw.
Proof.
  unfold Enum.member_line. intros H Hin.
  destruct (PyStr.eqb (PyStr.strip raw) "" || _ || _); [discriminate|].
  destruct (PyStr.eqb (Enum.clean (PyStr.strip raw)) "" || _);
    [discriminate|].
  inversion H; subst. apply clean_In, strip_In in Hin. exact Hin.
Qed.

Lemma contains_chr (c : ascii) (s : str) :
  PyStr.contains [c] s = false -> ~ In c s.
Proof.
  induction s as [|x s IH]; intros H.
  - intros [].
  - pose proof (contains_head _ _ H) as Hh.
    cbn [PyStr.startswith] in Hh. rewrite andb_true_r in Hh.
    intros [-> | Hin].
    + rewrite (proj2 (chr_eqb_eq _ _) eq_refl) in Hh. discriminate.
    + apply (IH (contains_cons _ _ _ H) Hin).
Qed.

(** The parts of a split on one character hold neither that character nor
    any that the text did not hold. *)
Lemma split_chr_parts (c : ascii) (s : str) :
  forall cur part,
    In part (PyStr.split_from [c] O cur s) ->
    (~ In c cur -> ~ In c part)
    /\ forall x, In x part -> In x cur \/ In x s.
Proof.
  induction s as [|a s IH]; intros cur part Hin.
  - destruct Hin as [<- | []]. split.
    + intros H Hc. apply H. apply in_rev. exact Hc.
    + intros x Hx. left. apply in_rev. exact Hx.
  - cbn [PyStr.split_from PyStr.startswith length Nat.pred] in Hin.
    rewrite andb_true_r in Hin.
    destruct (PyStr.chr_eqb c a) eqn:E.
    + destruct Hin as [<- | Hin].
      * split.
        -- intros H Hc. apply H. apply in_rev. exact Hc.
        -- intros x Hx. left. apply in_rev. exact Hx.
      * destruct (IH _ _ Hin) as [H1 H2]. split.
        -- intros _. apply H1. intros [].
        -- intros x Hx. destruct (H2 x Hx) as [[] | H]. right. right. exact H.
    + destruct (IH _ _ Hin) as [H1 H2]. split.
      * intros H. apply H1. intros [<- | Hc]; [|contradiction].
        rewrite (proj2 (chr_eqb_eq _ _) eq_refl) in E. discriminate.
      * intros x Hx. destruct (H2 x Hx) as [[-> | H] | H]; auto.
        -- right. left. reflexivity.
        -- right. right. exact H.
Qed.

Lemma split_chr_first (c : ascii) (s : str) :
  ~ In c (nth 0 (PyStr.split [c] s) [])
  /\ forall x, In x (nth 0 (PyStr.split [c] s) []) -> In x s.
Proof.
  destruct (nth_in_or_default 0 (PyStr.split [c] s) []) as [Hin | ->].
  - unfold PyStr.split in *. destruct (split_chr_parts _ _ _ _ Hin) as [H1 H2].
    split; [apply H1; intros [] |].
    intros x Hx. destruct (H2 x Hx) as [[] | H]. exact H.
  - split; [intros [] | intros x []].
Qed.

Lemma drop_while_idem (p : ascii -> bool) (s : str) :
  PyStr.drop_while p (PyStr.drop_while p s) = PyStr.drop_while p s.
Proof.
  induction s as [|x s IH]; simpl; [reflexivity|].
  destruct (p x) eqn:E; [exact IH|]. simpl. rewrite E. reflexivity.
Qed.

Lemma drop_while_snoc (p : ascii -> bool) (l : str) (c : ascii) :
  p c = false -> PyStr.drop_while p (l ++ [c]) = PyStr.drop_while p l ++ [c].
Proof.
  intros H. induction l as [|x l IH]; simpl.
  - rewrite H. reflexivity.
  - destruct (p x); [exact IH | reflexivity].
Qed.

Lemma rstrip_idem (s : str) : PyStr.rstrip (PyStr.rstrip s) = PyStr.rstrip s.
Proof.
  unfold PyStr.rstrip. rewrite rev_involutive, drop_while_idem. reflexivity.
Qed.

Lemma lstrip_rstrip_lstrip (s : str) :
  PyStr.lstrip (PyStr.rstrip (PyStr.lstrip s)) = PyStr.rstrip (PyStr.lstrip s).
Proof.
  unfold PyStr.lstrip.
  destruct (PyStr.drop_while PyStr.is_space s) as [|c t] eqn:E.
  - reflexivity.
  - assert (Hc : PyStr.is_space c = false).
    { clear -E. induction s as [|x s IH]; simpl in E; [discriminate|].
      destruct (PyStr.is_space x) eqn:Ex; [auto|].
      inversion E; subst. exact Ex. }
    unfold PyStr.rstrip. cbn [rev].
    rewrite (drop_while_snoc _ _ _ Hc), rev_app_distr. cbn [rev app].
    cbn [PyStr.drop_while]. rewrite Hc. reflexivity.
Qed.

(** [strip] leaves a stripped text as it is. *)
Lemma strip_idem (s : str) : PyStr.strip (PyStr.strip s) = PyStr.strip s.
Proof.
  unfold PyStr.strip. rewrite lstrip_rstrip_lstrip.
  apply rstrip_idem.
Qed.

Lemma tidy_keys_empty : tidy_keys Dict.empty.
Proof. intros k H. contradiction H. reflexivity. Qed.

Lemma record_tidy (name : str) (v : Z) (st : Enum.state) :
  (Enum.recordable name = true -> tidy_name name) ->
  tidy_keys (Enum.constants st) ->
  tidy_keys (Enum.constants (Enum.record name v st)).
Proof.
  intros Hn Hst k Hk. unfold Enum.record in Hk.
  destruct (Enum.recordable name) eqn:Hr; cbn [Enum.constants] in Hk;
    [|auto].
  rewrite get_set in Hk.
  destruct (PyStr.eqb k name) eqn:E; [|auto].
  apply str_eqb_eq in E. subst k. auto.
Qed.

Lemma recordable_nonempty (name : str) :
  Enum.recordable name = true -> name <> [].
Proof.
  unfold Enum.recordable. intros H ->. discriminate.
Qed.

Lemma step_tidy (st st' : Enum.state) (raw : str) :
  ~ In LF raw ->
  Enum.step st raw = Ok st' ->
  tidy_keys (Enum.constants st) ->
  tidy_keys (Enum.constants st').
Proof.
  unfold Enum.step. intros Hlf H Hst.
  destruct (Enum.member_line raw) as [line|] eqn:Hm;
    [|inversion H; subst; exact Hst].
  assert (Hline : forall c, In c line -> In c raw)
    by (intros c; apply member_line_In; exact Hm).
  unfold Enum.assignment in H.
  destruct (PyStr.contains "=" line) eqn:Hc.
  - destruct (Enum.eval_value _) as [[v|]|e]; cbn [bind] in H;
      inversion H; subst; [|exact Hst].
    apply record_tidy; [|exact Hst].
    intros Hr. destruct (split_chr_first "="%char line) as [H1 H2].
    split; [apply recordable_nonempty; exact Hr|].
    split; [intros Hin; apply H1; apply strip_In; exact Hin|].
    split; [|apply strip_idem].
    intros Hin. apply Hlf, Hline, H2, strip_In. exact Hin.
  - inversion H; subst. apply record_tidy; [|exact Hst].
    intros Hr. split; [apply recordable_nonempty; exact Hr|].
    split; [|split; [|apply strip_idem]].
    + intros Hin. apply (contains_chr "="%char line Hc).
      apply strip_In. exact Hin.
    + intros Hin. apply Hlf, Hline, strip_In. exact Hin.
Qed.

Lemma run_tidy (lines : list str) :
  forall st st',
    Forall (fun raw => ~ In LF raw) lines ->
    Enum.run st lines = Ok st' ->
    tidy_keys (Enum.constants st) ->
    tidy_keys (Enum.constants st').
Proof.
  induction lines as [|raw lines IH]; intros st st' Hlf H Hst; simpl in H.
  - inversion H; subst. exact Hst.
  - inversion Hlf; subst.
    destruct (Enum.step st raw) as [st1|e] eqn:E; cbn [bind] in H;
      [|discriminate].
    eapply IH; eauto using step_tidy.
Qed.

Lemma lines_without_LF (enum_body : str) :
  Forall (fun raw => ~ In LF raw) (lines_of enum_body).
Proof.
  apply Forall_forall. intros raw Hin.
  unfold lines_of, PyStr.split in Hin.
  destruct (split_chr_parts LF enum_body [] raw Hin) as [H _].
  apply H. intros [].
Qed.

(** X4.  Every name of the table [parse_enum] returns is not empty, holds
    neither [=] nor a line feed, and has no white space at either end. *)
Theorem parse_enum_tidy_names
    (header_content enum_name name : str) (table : Dict.t) :
  parse_enum header_content enum_name = Ok table ->
  In name (Dict.keys table) ->
  name <> [] /\ ~ In "="%char name /\ ~ In LF name
  /\ PyStr.strip name = name.
Proof.
  intros H Hin.
  assert (Htidy : tidy_keys table).
  { unfold parse_enum in H.
    destruct (Enum.search enum_name header_content) as [body|].
    - unfold Enum.parse_body in H.
      destruct (Enum.run Enum.init (PyStr.split [ascii_of_N 10] body))
        as [st|e] eqn:E; cbn [bind] in H; inversion H; subst.
      eapply run_tidy; [apply (lines_without_LF body) | exact E |].
      apply tidy_keys_empty.
    - inversion H; subst. apply tidy_keys_empty. }
  apply Htidy. intros Hnone. apply get_none_not_key in Hnone. contradiction.
Qed.

(** The names of [header_hex]. *)
Lemma parse_enum_tidy_names_witness :
  PyStr.strip "E_FLAG_A" = ("E_FLAG_A" : str).
Proof.
  apply (parse_enum_tidy_names header_hex "E_FLAG" "E_FLAG_A"
           [ ("E_FLAG_NONE" : str, 0); ("E_FLAG_A" : str, 16);
             ("E_FLAG_B" : str, 17) ]).
  - vm_compute. reflexivity.
  - right. left. reflexivity.
Defined.

(* ------------------------------------------------------------------ *)
(** ** Texts of numbers *)

Lemma fixed_digits_chars (base : N) (k : nat) :
  base <> 0%N ->
  forall n c,
    In c (fixed_digits base k n) ->
    exists d, (d < base)%N /\ c = PyInt.digit_chr d.
Proof.
  intros Hb. induction k as [|k IH]; intros n c H; cbn [fixed_digits] in H.
  - destruct H.
  - apply in_app_or in H. destruct H as [H | [<- | []]].
    + eapply IH; eauto.
    + exists (n mod base)%N. split; [apply N.mod_lt; exact Hb | reflexivity].
Qed.

Lemma digit_chr_numeric (d : N) :
  (d < 10)%N -> PyStr.is_digit (PyInt.digit_chr d) = true.
Proof.
  intros H.
  assert (E : (d = 0 \/ d = 1 \/ d = 2 \/ d = 3 \/ d = 4 \/ d = 5 \/ d = 6
               \/ d = 7 \/ d = 8 \/ d = 9)%N) by lia.
  repeat (destruct E as [-> | E]); try subst d; reflexivity.
Qed.

Lemma to_str_numeric (v : Z) :
  PyInt.to_str v <> [] /\ forallb numeric (PyInt.to_str v) = true.
Proof.
  unfold PyInt.to_str.
  destruct (digits_fixed 10 base_10_ge_2 (Z.abs_N v)) as (k & Hk & -> & _).
  assert (Hd : forallb numeric (fixed_digits 10 k (Z.abs_N v)) = true).
  { apply forallb_forall. intros c Hc.
    destruct (fixed_digits_chars 10 k ltac:(discriminate) _ _ Hc)
      as (d & Hd & ->).
    unfold numeric. rewrite (digit_chr_numeric d Hd). reflexivity. }
  assert (Hne : fixed_digits 10 k (Z.abs_N v) <> []).
  { intros E. apply (f_equal (@length ascii)) in E.
    rewrite fixed_digits_length in E. simpl in E. lia. }
  destruct (v <? 0).
  - split; [discriminate|]. cbn [list_ascii_of_string app forallb].
    rewrite Hd. reflexivity.
  - split; assumption.
Qed.

Lemma numeric_facts (c : ascii) :
  numeric c = true ->
  PyStr.is_space c = false /\ PyStr.chr_eqb "x" c = false
  /\ PyStr.chr_eqb "<" c = false.
Proof.
  intros H. each_char c H; repeat split; reflexivity.
Qed.

Lemma space_facts (c : ascii) :
  PyStr.is_space c = true ->
  PyStr.chr_eqb "x" c = false /\ PyStr.chr_eqb "<" c = false.
Proof.
  intros H. each_char c H; split; reflexivity.
Qed.

Lemma startswith_0x_numeric (s rest : str) :
  s <> [] ->
  forallb numeric s = true ->
  PyStr.startswith "x" rest = false ->
  PyStr.startswith "0x" (s ++ rest) = false.
Proof.
  intros Hne Hs Hr. destruct s as [|a [|b t]]; [contradiction| |].
  - cbn [app PyStr.startswith list_ascii_of_string].
    cbn [PyStr.startswith list_ascii_of_string] in Hr.
    destruct rest as [|x rest]; [apply andb_false_r|].
    rewrite Hr. apply andb_false_r.
  - cbn [forallb] in Hs. apply andb_true_iff in Hs. destruct Hs as [_ Hs].
    apply andb_true_iff in Hs. destruct Hs as [Hb _].
    destruct (numeric_facts b Hb) as (_ & Hx & _).
    cbn [app PyStr.startswith list_ascii_of_string]. rewrite Hx.
    apply andb_false_r.
Qed.

Lemma contains_without_chr (c : ascii) (sub s : str) :
  ~ In c s -> PyStr.contains (c :: sub) s = false.
Proof.
  induction s as [|x s IH]; intros H.
  - reflexivity.
  - cbn [PyStr.contains PyStr.startswith].
    assert (E : PyStr.chr_eqb c x = false).
    { destruct (PyStr.chr_eqb c x) eqn:E; [|reflexivity].
      apply chr_eqb_eq in E. subst x. exfalso. apply H. left. reflexivity. }
    rewrite E. cbn [andb orb]. apply IH. intros Hin. apply H. right.
    exact Hin.
Qed.

Lemma forallb_not_In (p : ascii -> bool) (c : ascii) (s : str) :
  forallb p s = true -> p c = false -> ~ In c s.
Proof.
  intros Hs Hc Hin. rewrite forallb_forall in Hs.
  rewrite (Hs c Hin) in Hc. discriminate.
Qed.

Lemma numeric_lt : numeric "<" = false.
Proof. reflexivity. Qed.

(** The value branch of [parse_enum] reads a decimal text back. *)
Lemma eval_value_to_str (v : Z) :
  Enum.eval_value (PyInt.to_str v) = Ok (Some v).
Proof.
  destruct (to_str_numeric v) as [Hne Hnum].
  unfold Enum.eval_value.
  pose proof (startswith_0x_numeric _ [] Hne Hnum eq_refl) as H0.
  rewrite app_nil_r in H0. rewrite H0.
  assert (H1 : PyStr.contains "<<" (PyInt.to_str v) = false).
  { apply (contains_without_chr "<"%char).
    apply (forallb_not_In numeric); [exact Hnum | reflexivity]. }
  rewrite H1, int_of_to_str. reflexivity.
Qed.

(** X6.  What the emitter writes, the extractors read back: the literal
    [main] gives a value, taken as the value text of an enum member, is
    evaluated to that value by [parse_enum], and lines 75-78 of
    [parse_defines] read it back too when the value is not negative.  (A
    negative value in a flag category is written [0x-...], which neither
    reads.) *)
Theorem emitted_literal_reads_back (category : str) (value : Z) :
  0 <= value \/ Main.is_flag_category category = false ->
  Enum.eval_value (Main.value_str category value) = Ok (Some value)
  /\ (0 <= value ->
      literal_value (Main.value_str category value) = Ok value).
Proof.
  intros H.
  assert (Hhex : 0 <= value ->
                 Enum.eval_value (Main.hex_literal value) = Ok (Some value)
                 /\ literal_value (Main.hex_literal value) = Ok value).
  { intros H0. unfold Enum.eval_value, literal_value.
    change (PyStr.startswith "0x" (Main.hex_literal value)) with true.
    cbv iota. rewrite (int_of_hex_literal value H0). split; reflexivity. }
  assert (Hdec : Enum.eval_value (PyInt.to_str value) = Ok (Some value)
                 /\ literal_value (PyInt.to_str value) = Ok value).
  { split; [apply eval_value_to_str|].
    destruct (to_str_numeric value) as [Hne Hnum].
    unfold literal_value.
    pose proof (startswith_0x_numeric _ [] Hne Hnum eq_refl) as H0.
    rewrite app_nil_r in H0. rewrite H0. apply int_of_to_str. }
  unfold Main.value_str.
  destruct (0x1000000 <=? value) eqn:E1.
  { apply Z.leb_le in E1. split; [|intros _]; apply Hhex; lia. }
  destruct (0x100 <=? value) eqn:E2.
  { apply Z.leb_le in E2. split; [|intros _]; apply Hhex; lia. }
  destruct (Main.is_flag_category category) eqn:E3.
  - destruct H as [H | H]; [|discriminate].
    split; [|intros _]; apply Hhex; exact H.
  - split; [|intros _]; apply Hdec.
Qed.

(** The theorem at the value 5 of a flag category. *)
Lemma emitted_literal_reads_back_witness :
  Enum.eval_value "0x00000005" = Ok (Some 5).
Proof.
  apply (emitted_literal_reads_back "FMOD_MODE" 5). left. lia.
Defined.

(* ------------------------------------------------------------------ *)
(** ** Shift expressions *)

Lemma startswith_app (sub post : str) :
  PyStr.startswith sub (sub ++ post) = true.
Proof.
  induction sub as [|c sub IH]; simpl; [reflexivity|].
  rewrite (proj2 (chr_eqb_eq _ _) eq_refl). exact IH.
Qed.

Lemma contains_infix (sub pre post : str) :
  PyStr.contains sub (pre ++ sub ++ post) = true.
Proof.
  induction pre as [|c pre IH]; cbn [app].
  - destruct (sub ++ post) eqn:E; cbn [PyStr.contains];
      rewrite <- E, startswith_app; reflexivity.
  - cbn [PyStr.contains]. rewrite IH. apply orb_true_r.
Qed.

Lemma chr_neq_eqb (c x : ascii) : c <> x -> PyStr.chr_eqb c x = false.
Proof.
  intros H. destruct (PyStr.chr_eqb c x) eqn:E; [|reflexivity].
  apply chr_eqb_eq in E. contradiction.
Qed.

Lemma split_shift_tail (Q : str) :
  forall cur,
    ~ In "<"%char Q -> PyStr.split_from "<<" O cur Q = [rev cur ++ Q].
Proof.
  induction Q as [|x Q IH]; intros cur H.
  - cbn. rewrite app_nil_r. reflexivity.
  - cbn [PyStr.split_from PyStr.startswith list_ascii_of_string].
    rewrite chr_neq_eqb
      by (intros E; apply H; left; symmetry; exact E).
    cbn [andb]. rewrite IH by (intros Hin; apply H; right; exact Hin).
    cbn [rev]. rewrite <- app_assoc. reflexivity.
Qed.

Lemma split_shift (P Q : str) :
  forall cur,
    ~ In "<"%char P ->
    PyStr.split_from "<<" O cur (P ++ "<<" ++ Q)
    = (rev cur ++ P) :: PyStr.split_from "<<" O [] Q.
Proof.
  induction P as [|x P IH]; intros cur H.
  - cbn. rewrite app_nil_r. reflexivity.
  - cbn [app PyStr.split_from PyStr.startswith list_ascii_of_string].
    rewrite chr_neq_eqb
      by (intros E; apply H; left; symmetry; exact E).
    cbn [andb]. rewrite IH by (intros Hin; apply H; right; exact Hin).
    cbn [rev]. rewrite <- app_assoc. reflexivity.
Qed.

Lemma drop_while_all (p : ascii -> bool) (w s : str) :
  forallb p w = true -> PyStr.drop_while p (w ++ s) = PyStr.drop_while p s.
Proof.
  induction w as [|c w IH]; intros H; cbn [app]; [reflexivity|].
  cbn [forallb] in H. apply andb_true_iff in H. destruct H as [Hc Hw].
  cbn [PyStr.drop_while]. rewrite Hc. auto.
Qed.

Lemma drop_while_head (p : ascii -> bool) (c : ascii) (s : str) :
  p c = false -> PyStr.drop_while p (c :: s) = c :: s.
Proof. intros H. cbn. rewrite H. reflexivity. Qed.

Lemma forallb_rev (p : ascii -> bool) (s : str) :
  forallb p s = true -> forallb p (rev s) = true.
Proof.
  rewrite !forallb_forall. intros H c Hc. apply H. apply in_rev. exact Hc.
Qed.

(** [strip] removes the white space put around a text that holds none. *)
Lemma strip_pad (w1 w2 s : str) :
  forallb PyStr.is_space w1 = true ->
  forallb PyStr.is_space w2 = true ->
  forallb (fun c => negb (PyStr.is_space c)) s = true ->
  PyStr.strip (w1 ++ s ++ w2) = s.
Proof.
  intros H1 H2 Hs. unfold PyStr.strip, PyStr.lstrip, PyStr.rstrip.
  rewrite (drop_while_all _ _ _ H1).
  destruct s as [|c s].
  - cbn [app].
    assert (E : PyStr.drop_while PyStr.is_space w2 = []).
    { rewrite <- (app_nil_r w2) at 1. rewrite (drop_while_all _ _ _ H2).
      reflexivity. }
    rewrite E. reflexivity.
  - pose proof Hs as Hs'. cbn [forallb] in Hs.
    apply andb_true_iff in Hs. destruct Hs as [Hc _].
    apply negb_true_iff in Hc.
    cbn [app]. rewrite (drop_while_head _ _ _ Hc).
    change (c :: s ++ w2) with ((c :: s) ++ w2).
    rewrite rev_app_distr, (drop_while_all _ _ _ (forallb_rev _ _ H2)).
    assert (E : PyStr.drop_while PyStr.is_space (rev (c :: s))
                = rev (c :: s)).
    { destruct (rev (c :: s)) as [|x t] eqn:Er; [reflexivity|].
      apply drop_while_head.
      assert (Hx : In x (c :: s)) by (apply in_rev; rewrite Er; left; reflexivity).
      rewrite forallb_forall in Hs'. apply negb_true_iff. auto. }
    rewrite E. apply rev_involutive.
Qed.

Lemma to_str_no_space (v : Z) :
  forallb (fun c => negb (PyStr.is_space c)) (PyInt.to_str v) = true.
Proof.
  destruct (to_str_numeric v) as [_ H]. rewrite forallb_forall in *.
  intros c Hc. destruct (numeric_facts c (H c Hc)) as [-> _]. reflexivity.
Qed.

Lemma no_lt_in_operand (w : str) (v : Z) :
  forallb PyStr.is_space w = true ->
  ~ In "<"%char (PyInt.to_str v ++ w) /\ ~ In "<"%char (w ++ PyInt.to_str v).
Proof.
  intros Hw. destruct (to_str_numeric v) as [_ Hv].
  assert (H1 : ~ In "<"%char (PyInt.to_str v))
    by (apply (forallb_not_In numeric); [exact Hv | reflexivity]).
  assert (H2 : ~ In "<"%char w)
    by (apply (forallb_not_In PyStr.is_space); [exact Hw | reflexivity]).
  split; intros H; apply in_app_or in H; tauto.
Qed.

(** X5.  A value text [a << b], with decimal operands and any white space
    around the operator, is evaluated to [a * 2^b]; with a negative [b]
    [parse_enum] raises [ValueError]. *)
Theorem eval_value_shift (a b : Z) (w1 w2 : str) :
  forallb PyStr.is_space w1 = true ->
  forallb PyStr.is_space w2 = true ->
  Enum.eval_value (shift_text a b w1 w2)
  = if b <? 0 then Raise ValueError else Ok (Some (a * 2 ^ b)).
Proof.
  intros H1 H2. unfold Enum.eval_value, shift_text.
  destruct (to_str_numeric a) as [Hne Hnum].
  assert (H0x : PyStr.startswith "0x"
                  (PyInt.to_str a ++ w1 ++ "<<" ++ w2 ++ PyInt.to_str b)
                = false).
  { apply startswith_0x_numeric; trivial.
    destruct w1 as [|c w1]; [reflexivity|].
    cbn [forallb] in H1. apply andb_true_iff in H1. destruct H1 as [Hc _].
    destruct (space_facts c Hc) as [Hx _].
    cbn [app PyStr.startswith list_ascii_of_string]. rewrite Hx.
    reflexivity. }
  rewrite H0x.
  replace (PyInt.to_str a ++ w1 ++ "<<" ++ w2 ++ PyInt.to_str b)
    with ((PyInt.to_str a ++ w1) ++ "<<" ++ (w2 ++ PyInt.to_str b))
    by (rewrite <- !app_assoc; reflexivity).
  rewrite contains_infix.
  destruct (no_lt_in_operand w1 a H1) as [Ha _].
  destruct (no_lt_in_operand w2 b H2) as [_ Hb].
  unfold PyStr.split. rewrite (split_shift _ _ [] Ha).
  rewrite (split_shift_tail _ [] Hb). cbn [rev app].
  pose proof (strip_pad [] w1 _ eq_refl H1 (to_str_no_space a)) as Sa.
  pose proof (strip_pad w2 [] _ H2 eq_refl (to_str_no_space b)) as Sb.
  cbn [app] in Sa. rewrite app_nil_r in Sb.
  rewrite Sa, Sb, !int_of_to_str. cbn [bind].
  unfold PyInt.lshift. destruct (b <? 0) eqn:E; [reflexivity|].
  cbn [bind]. apply Z.ltb_ge in E.
  rewrite Z.shiftl_mul_pow2 by exact E. reflexivity.
Qed.

(** The member [FOO = 1 << 4] of the specification: 16. *)
Lemma eval_value_shift_witness :
  Enum.eval_value "1 << 4" = Ok (Some 16).
Proof.
  apply (eval_value_shift 1 4 " " " "); reflexivity.
Defined.

(* ================================================================== *)
(** * Further properties of [parse_defines] *)
(* ================================================================== *)

Lemma digit_value_nonneg (c : ascii) (d : Z) :
  PyInt.digit_value c = Some d -> 0 <= d.
Proof.
  unfold PyInt.digit_value, PyStr.in_range. intros H.
  destruct ((48 <=? PyStr.code c)%N && _) eqn:E1.
  { inversion H; subst. apply andb_true_iff in E1. destruct E1 as [E _].
    apply N.leb_le in E. lia. }
  destruct ((97 <=? PyStr.code c)%N && _) eqn:E2.
  { inversion H; subst. apply andb_true_iff in E2. destruct E2 as [E _].
    apply N.leb_le in E. lia. }
  destruct ((65 <=? PyStr.code c)%N && _) eqn:E3; [|discriminate].
  inversion H; subst. apply andb_true_iff in E3. destruct E3 as [E _].
  apply N.leb_le in E. lia.
Qed.

Lemma scan_digits_nonneg (base : Z) (s : str) :
  0 <= base ->
  forall started prev_us acc v r,
    0 <= acc ->
    PyInt.scan_digits base started prev_us acc s = Some (v, r) ->
    0 <= v.
Proof.
  intros Hb. induction s as [|c s IH]; intros started prev_us acc v r Ha H;
    cbn [PyInt.scan_digits] in H.
  - destruct (started && negb prev_us); inversion H; subst. exact Ha.
  - destruct (PyInt.is_underscore c).
    + destruct (started && negb prev_us); [|discriminate]. eauto.
    + destruct (PyInt.digit_value c) as [d|] eqn:Ed.
      * destruct (d <? base).
        -- apply digit_value_nonneg in Ed. eapply IH; [|exact H]. nia.
        -- destruct (started && negb prev_us); inversion H; subst. exact Ha.
      * destruct (started && negb prev_us); inversion H; subst. exact Ha.
Qed.

(** A literal that starts with a digit has no sign: its value is not
    negative. *)
Lemma int_of_nonneg (base : Z) (c : ascii) (t : str) (v : Z) :
  0 <= base ->
  PyStr.is_digit c = true ->
  PyInt.int_of base (c :: t) = Ok v ->
  0 <= v.
Proof.
  intros Hb Hc H.
  destruct (dec_digit_value c Hc) as (_ & Hsp & Hplus & Hminus & _).
  unfold PyInt.int_of in H. cbn [PyStr.drop_while] in H. rewrite Hsp in H.
  unfold PyInt.skip_sign in H. rewrite Hplus, Hminus in H.
  destruct (PyInt.scan_digits base false false 0 _) as [[v' rest]|] eqn:E;
    [|discriminate].
  apply scan_digits_nonneg in E; [|exact Hb|lia].
  destruct (PyStr.drop_while PyInt.int_space rest); [|discriminate].
  assert (Hv : 1 * v' = v) by congruence.
  lia.
Qed.

Lemma bare_literal_head (lit : str) :
  bare_literal lit = true ->
  exists c t, lit = c :: t /\ PyStr.is_digit c = true.
Proof.
  unfold bare_literal. intros H. apply orb_true_iff in H.
  destruct H as [H | H].
  - destruct (PyStr.after_prefix "0x" lit) as [[|c r]|] eqn:E;
      try discriminate.
    apply after_prefix_app in E. subst lit.
    exists "0"%char, ("x"%char :: c :: r). split; reflexivity.
  - destruct lit as [|c t]; [discriminate|].
    cbn [forallb] in H. apply andb_true_iff in H.
    exists c, t. split; [reflexivity | apply H].
Qed.

Lemma literal_value_nonneg (lit : str) (v : Z) :
  bare_literal lit = true -> literal_value lit = Ok v -> 0 <= v.
Proof.
  intros Hb H. destruct (bare_literal_head lit Hb) as (c & t & -> & Hc).
  unfold literal_value in H.
  destruct (PyStr.startswith "0x" (c :: t));
    eapply int_of_nonneg; try exact H; trivial; lia.
Qed.

Lemma match_here_name (prefix : str) (tail : ascii -> bool) (decimal : bool)
    (s : str) (m : Defines.define_match) :
  Defines.match_here prefix tail decimal s = Some m ->
  (exists w,
     Defines.group1 m = prefix ++ w /\ w <> [] /\ forallb tail w = true)
  /\ exists s', Defines.literal_here decimal s' = Some (Defines.group2 m).
Proof.
  unfold Defines.match_here. intros H.
  destruct (PyStr.after_prefix "#define" s) as [r0|]; [|discriminate].
  destruct (PyStr.take_while PyStr.is_space r0); [discriminate|].
  destruct (PyStr.after_prefix prefix (PyStr.drop_while PyStr.is_space r0))
    as [r1|]; [|discriminate].
  destruct (PyStr.take_while tail r1) as [|c w] eqn:Ew; [discriminate|].
  destruct (PyStr.take_while PyStr.is_space (PyStr.drop_while tail r1));
    [discriminate|].
  destruct (Defines.literal_here decimal _) as [lit|] eqn:El; [|discriminate].
  inversion H; subst m. cbn [Defines.group1 Defines.group2]. split.
  - exists (c :: w). split; [reflexivity|]. split; [discriminate|].
    rewrite <- Ew. apply take_while_all.
  - eauto.
Qed.



(* ================================================================== *)
(** * Properties of the tables of [main] *)
(* ================================================================== *)

(* ------------------------------------------------------------------ *)
(** ** Dictionaries keep their keys distinct *)

Lemma set_keys (k : str) (v : Z) (d : Dict.t) :
  Dict.keys (Dict.set k v d)
  = if Dict.mem k d then Dict.keys d else Dict.keys d ++ [k].
Proof.
  unfold Dict.mem, Dict.keys.
  induction d as [|[k' v'] d IH]; cbn [Dict.set Dict.get map fst app].
  - reflexivity.
  - destruct (PyStr.eqb k k') eqn:E; cbn [map fst].
    + reflexivity.
    + rewrite IH. destruct (Dict.get k d); reflexivity.
Qed.

Lemma set_nodup (k : str) (v : Z) (d : Dict.t) :
  NoDup (Dict.keys d) -> NoDup (Dict.keys (Dict.set k v d)).
Proof.
  intros H. rewrite set_keys. unfold Dict.mem.
  destruct (Dict.get k d) eqn:E; [exact H|].
  apply get_none_not_key in E.
  apply NoDup_app; [exact H | repeat constructor; intros [] |].
  intros x Hx [<- | []]. contradiction.
Qed.

Lemma update_nodup (other : Dict.t) :
  forall d, NoDup (Dict.keys d) -> NoDup (Dict.keys (Dict.update d other)).
Proof.
  unfold Dict.update.
  induction other as [|[k v] other IH]; intros d H; cbn [fold_left fst snd].
  - exact H.
  - apply IH, set_nodup, H.
Qed.

Lemma update_get (other : Dict.t) :
  forall d k,
    NoDup (Dict.keys other) ->
    Dict.get k (Dict.update d other)
    = match Dict.get k other with
      | Some v => Some v
      | None => Dict.get k d
      end.
Proof.
  unfold Dict.update.
  induction other as [|[k' v'] other IH]; intros d k Hnd;
    cbn [fold_left fst snd].
  - reflexivity.
  - cbn [Dict.keys map fst] in Hnd. inversion Hnd as [|? ? Hk' Hnd']; subst.
    rewrite (IH _ _ Hnd'). cbn [Dict.get].
    destruct (PyStr.eqb k k') eqn:E.
    + apply str_eqb_eq in E. subst k'.
      apply get_none_not_key in Hk'. rewrite Hk', get_set_same. reflexivity.
    + rewrite get_set, E. reflexivity.
Qed.

Lemma record_nodup (name : str) (v : Z) (st : Enum.state) :
  NoDup (Dict.keys (Enum.constants st)) ->
  NoDup (Dict.keys (Enum.constants (Enum.record name v st))).
Proof.
  intros H. unfold Enum.record.
  destruct (Enum.recordable name); cbn [Enum.constants];
    [apply set_nodup|]; exact H.
Qed.

Lemma run_nodup (lines : list str) :
  forall st st',
    Enum.run st lines = Ok st' ->
    NoDup (Dict.keys (Enum.constants st)) ->
    NoDup (Dict.keys (Enum.constants st')).
Proof.
  induction lines as [|raw lines IH]; intros st st' H Hst; simpl in H.
  - inversion H; subst. exact Hst.
  - destruct (Enum.step st raw) as [st1|e] eqn:E; cbn [bind] in H;
      [|discriminate].
    apply (IH _ _ H). clear H IH. unfold Enum.step in E.
    destruct (Enum.member_line raw) as [line|];
      [|inversion E; subst; exact Hst].
    destruct (Enum.assignment line) as [[name value_str]|].
    + destruct (Enum.eval_value value_str) as [[v|]|e]; cbn [bind] in E;
        inversion E; subst; auto using record_nodup.
    + inversion E; subst. auto using record_nodup.
Qed.

Lemma parse_enum_nodup (header_content enum_name : str) (table : Dict.t) :
  parse_enum header_content enum_name = Ok table ->
  NoDup (Dict.keys table).
Proof.
  unfold parse_enum. intros H.
  destruct (Enum.search enum_name header_content) as [body|].
  - unfold Enum.parse_body in H.
    destruct (Enum.run Enum.init _) as [st|e] eqn:E; cbn [bind] in H;
      inversion H; subst.
    apply (run_nodup _ _ _ E). constructor.
  - inversion H; subst. constructor.
Qed.

(* ------------------------------------------------------------------ *)
(** ** Merging the tables *)

(** X8.  Merging an enum into the table, the later extraction wins: a name
    of the enum takes the enum's value, every other name keeps the value
    the table had. *)
Theorem add_enum_merge
    (fmod_common enum_name : str) (all_constants merged : Dict.t) :
  Scan.add_enum fmod_common all_constants enum_name = Ok merged ->
  exists constants,
    parse_enum fmod_common enum_name = Ok constants
    /\ forall name,
         Dict.get name merged
         = match Dict.get name constants with
           | Some v => Some v
           | None => Dict.get name all_constants
           end.
Proof.
  unfold Scan.add_enum. intros H.
  destruct (parse_enum fmod_common enum_name) as [constants|e] eqn:E;
    cbn [bind] in H; inversion H; subst.
  exists constants. split; [reflexivity|].
  intros name. apply update_get. apply (parse_enum_nodup _ _ _ E).
Qed.

(** Merging the enum of [header_sentinel] into a table that gave [E_MODE_B]
    another value. *)
Lemma add_enum_merge_witness :
  exists constants,
    parse_enum header_sentinel "E_MODE" = Ok constants
    /\ forall name,
         Dict.get name
           [ ("E_MODE_B" : str, 65536); ("OTHER" : str, 7);
             ("E_MODE_A" : str, 0) ]
         = match Dict.get name constants with
           | Some v => Some v
           | None =>
               Dict.get name [ ("E_MODE_B" : str, 1); ("OTHER" : str, 7) ]
           end.
Proof.
  apply (add_enum_merge header_sentinel "E_MODE"
           [ ("E_MODE_B" : str, 1); ("OTHER" : str, 7) ]).
  vm_compute. reflexivity.
Defined.

(* ------------------------------------------------------------------ *)
(** ** The scans of macros never raise *)

Lemma literal_here_hex (s lit : str) :
  Defines.literal_here false s = Some lit ->
  PyStr.startswith "0x" lit = true /\ bare_literal lit = true.
Proof.
  intros H. split; [|apply (literal_here_app _ _ _ H)].
  unfold Defines.literal_here in H.
  destruct (PyStr.after_prefix "0x" s) as [r|]; [|discriminate].
  destruct (PyStr.take_while PyStr.is_hex_digit r); [discriminate|].
  inversion H; subst. reflexivity.
Qed.

Lemma int_of_hex_here (s lit : str) :
  Defines.literal_here false s = Some lit ->
  exists v, PyInt.int_of 16 lit = Ok v /\ 0 <= v.
Proof.
  intros H. destruct (literal_here_hex _ _ H) as [H0 Hb].
  destruct (literal_value_ok _ Hb) as [v Hv].
  exists v. split.
  - unfold literal_value in Hv. rewrite H0 in Hv. exact Hv.
  - apply (literal_value_nonneg _ _ Hb Hv).
Qed.

Lemma finditer_hex (prefix : str) (tail : ascii -> bool) (text : str) :
  Forall (fun m => exists s',
              Defines.literal_here false s' = Some (Defines.group2 m))
    (Defines.finditer prefix tail false text).
Proof.
  apply Forall_forall. intros m Hin. unfold Defines.finditer in Hin.
  destruct (finditer_from_origin _ _ _ _ _ _ Hin) as (_ & s' & _ & Hm).
  apply (match_here_name _ _ _ _ _ Hm).
Qed.

Lemma store_hex_all_ok (ms : list Defines.define_match) :
  Forall (fun m => exists s',
              Defines.literal_here false s' = Some (Defines.group2 m)) ms ->
  forall d,
    NoDup (Dict.keys d) ->
    exists table,
      Scan.store_hex_all d ms = Ok table /\ NoDup (Dict.keys table).
Proof.
  induction 1 as [|m ms [s' Hm] _ IH]; intros d Hd; simpl.
  - eauto.
  - unfold Scan.store_hex.
    destruct (int_of_hex_here _ _ Hm) as (v & -> & _). cbn [bind].
    apply IH, set_nodup, Hd.
Qed.

Lemma scan_flags_ok (prefix : str) (tail : ascii -> bool) (text : str)
    (d : Dict.t) :
  NoDup (Dict.keys d) ->
  exists table,
    Scan.scan_flags prefix tail text d = Ok table
    /\ NoDup (Dict.keys table).
Proof. apply store_hex_all_ok, finditer_hex. Qed.

Lemma add_modes_ok (fmod_common : str) (d : Dict.t) :
  NoDup (Dict.keys d) ->
  exists table,
    Scan.add_modes fmod_common d = Ok table /\ NoDup (Dict.keys table).
Proof.
  intros Hd. unfold Scan.add_modes.
  destruct (Scan.mode_section_match fmod_common);
    [apply scan_flags_ok; exact Hd | eauto].
Qed.

Lemma version_match_hex (s g : str) :
  Main.version_match s = Some g ->
  exists s', Defines.literal_here false s' = Some g.
Proof.
  assert (Hhere : forall t, Main.version_here t = Some g ->
                    exists s', Defines.literal_here false s' = Some g).
  { intros t H. unfold Main.version_here in H.
    destruct (PyStr.after_prefix "#define" t) as [r0|]; [|discriminate].
    destruct (PyStr.take_while PyStr.is_space r0); [discriminate|].
    destruct (PyStr.after_prefix "FMOD_VERSION" _) as [r1|]; [|discriminate].
    destruct (PyStr.take_while PyStr.is_space r1); [discriminate|].
    eauto. }
  induction s as [|c s IH]; cbn [Main.version_match]; intros H.
  - destruct (Main.version_here []) eqn:E; [|discriminate].
    inversion H; subst. eauto.
  - destruct (Main.version_here (c :: s)) eqn:E.
    + inversion H; subst. eauto.
    + auto.
Qed.

Lemma add_version_ok (fmod_common : str) (d : Dict.t) :
  NoDup (Dict.keys d) ->
  exists table,
    Main.add_version fmod_common d = Ok table /\ NoDup (Dict.keys table).
Proof.
  intros Hd. unfold Main.add_version.
  destruct (Main.version_match fmod_common) as [g|] eqn:E; [|eauto].
  destruct (version_match_hex _ _ E) as [s' Hs'].
  destruct (int_of_hex_here _ _ Hs') as (v & -> & _). cbn [bind].
  eexists. split; [reflexivity | apply set_nodup, Hd].
Qed.

Lemma add_enums_ok (fmod_common : str) (names : list str) :
  forall d,
    NoDup (Dict.keys d) ->
    (forall name, In name names ->
       exists t, parse_enum fmod_common name = Ok t) ->
    exists table,
      Scan.add_enums fmod_common d names = Ok table
      /\ NoDup (Dict.keys table).
Proof.
  induction names as [|name names IH]; intros d Hd Hall; simpl.
  - eauto.
  - unfold Scan.add_enum.
    destruct (Hall name (or_introl eq_refl)) as [t ->]. cbn [bind].
    apply IH; [apply update_nodup, Hd|].
    intros n Hn. apply Hall. right. exact Hn.
Qed.

Lemma add_enums_inv (fmod_common : str) (names : list str) :
  forall d table,
    Scan.add_enums fmod_common d names = Ok table ->
    forall name, In name names ->
      exists t, parse_enum fmod_common name = Ok t.
Proof.
  induction names as [|n names IH]; intros d table H name Hin; simpl in *.
  - destruct Hin.
  - unfold Scan.add_enum in H.
    destruct (parse_enum fmod_common n) as [t|e] eqn:E; cbn [bind] in H;
      [|discriminate].
    destruct Hin as [<- | Hin]; [eauto|].
    eapply IH; eauto.
Qed.

(** The merged table exists as soon as the nine enums are extracted, and
    its names are distinct. *)
Lemma all_constants_ok (fmod_common : str) :
  (forall name, In name extracted_enums ->
     exists t, parse_enum fmod_common name = Ok t) ->
  exists table,
    Scan.all_constants fmod_common = Ok table /\ NoDup (Dict.keys table).
Proof.
  intros Hall. unfold Scan.all_constants.
  destruct (add_enums_ok fmod_common extracted_enums Dict.empty
              ltac:(constructor) Hall) as (d0 & H0 & N0).
  unfold extracted_enums in H0. cbn [Scan.add_enums] in H0.
  destruct (Scan.add_enum fmod_common Dict.empty "FMOD_RESULT")
    as [d1|e]; cbn [bind] in *; [|discriminate].
  rewrite H0. cbn [bind].
  destruct (scan_flags_ok "FMOD_TIMEUNIT_" PyStr.is_word fmod_common d0 N0)
    as (d2 & -> & N2). cbn [bind].
  destruct (add_modes_ok fmod_common d2 N2) as (d3 & -> & N3). cbn [bind].
  destruct (scan_flags_ok "FMOD_INIT_" PyStr.is_word fmod_common d3 N3)
    as (d4 & -> & N4). cbn [bind].
  destruct (scan_flags_ok "FMOD_SYSTEM_CALLBACK_" PyStr.is_word fmod_common
              d4 N4) as (d5 & -> & N5). cbn [bind].
  destruct (scan_flags_ok "FMOD_CHANNELMASK_" PyStr.is_word fmod_common
              d5 N5) as (d6 & -> & N6). cbn [bind].
  apply add_version_ok. exact N6.
Qed.

Lemma all_constants_inv (fmod_common : str) (table : Dict.t) :
  Scan.all_constants fmod_common = Ok table ->
  forall name, In name extracted_enums ->
    exists t, parse_enum fmod_common name = Ok t.
Proof.
  unfold Scan.all_constants. intros H.
  destruct (Scan.add_enum fmod_common Dict.empty "FMOD_RESULT")
    as [d1|e] eqn:E1; cbn [bind] in H; [|discriminate].
  destruct (Scan.add_enums fmod_common d1 Scan.enum_names)
    as [d0|e] eqn:E0; cbn [bind] in H; [|discriminate].
  intros name Hin.
  apply (add_enums_inv fmod_common extracted_enums Dict.empty d0);
    [|exact Hin].
  unfold extracted_enums. cbn [Scan.add_enums]. rewrite E1. cbn [bind].
  exact E0.
Qed.

(** X9.  [main] produces its text and its count exactly when [parse_enum]
    returns a table for each of the nine enums: the scans of macros, the
    search for the version and the emission never raise. *)
Theorem main_fails_only_in_enums (fmod_common : str) :
  (forall name, In name extracted_enums ->
     exists t, parse_enum fmod_common name = Ok t)
  <-> exists java_code total, main fmod_common = Ok (java_code, total).
Proof.
  unfold main. split.
  - intros Hall. destruct (all_constants_ok _ Hall) as (d & -> & _).
    cbn [bind].
    destruct (pieces_shape d) as (v & rest & _ & _ & Hps).
    rewrite (java_code_of_pieces _ _ Hps). cbn [bind]. eauto.
  - intros (code & total & H).
    destruct (Scan.all_constants fmod_common) as [d|e] eqn:E;
      cbn [bind] in H; [|discriminate].
    apply (all_constants_inv _ _ E).
Qed.

(* ================================================================== *)
(** * Properties of the categories *)
(* ================================================================== *)

Lemma distinct_NoDup (l : list str) : distinct l = true -> NoDup l.
Proof.
  induction l as [|x l IH]; cbn [distinct]; intros H; constructor.
  - apply andb_true_iff in H. destruct H as [H _].
    apply negb_true_iff in H. intros Hin.
    assert (E : existsb (PyStr.eqb x) l = true).
    { apply existsb_exists. exists x. split; [exact Hin | apply str_eqb_refl]. }
    rewrite E in H. discriminate.
  - apply IH. apply andb_true_iff in H. apply H.
Qed.

Lemma categories0_labels : NoDup (map fst Main.categories0).
Proof. apply distinct_NoDup. vm_compute. reflexivity. Qed.

Lemma append_to_labels (c name : str) (cats : Main.categories_t) :
  map fst (Main.append_to c name cats) = map fst cats.
Proof.
  induction cats as [|[c' l] cats IH]; cbn [Main.append_to map fst].
  - reflexivity.
  - destruct (PyStr.eqb c c'); cbn [map fst]; [reflexivity|].
    rewrite IH. reflexivity.
Qed.

Lemma append_to_get (c name : str) (cats : Main.categories_t) :
  NoDup (map fst cats) ->
  Main.append_to c name cats
  = map (fun cl =>
           (fst cl, snd cl ++ if PyStr.eqb c (fst cl) then [name] else []))
      cats.
Proof.
  induction cats as [|[c' l] cats IH]; intros Hnd;
    cbn [Main.append_to map fst snd].
  - reflexivity.
  - cbn [map fst] in Hnd. inversion Hnd as [|? ? Hc' Hnd']; subst.
    destruct (PyStr.eqb c c') eqn:E.
    + f_equal. apply str_eqb_eq in E. subst c'.
      clear IH Hnd Hnd'. induction cats as [|[c'' l''] cats IH];
        [reflexivity|].
      cbn [map fst snd].
      assert (E : PyStr.eqb c c'' = false).
      { apply str_eqb_neq. intros ->. apply Hc'. left. reflexivity. }
      rewrite E, app_nil_r. f_equal. apply IH.
      intros Hin. apply Hc'. right. exact Hin.
    + rewrite app_nil_r, (IH Hnd'). reflexivity.
Qed.

Lemma categorize_fold (names : list str) :
  forall cats,
    NoDup (map fst cats) ->
    fold_left Main.categorize_one names cats
    = map (fun cl => (fst cl, snd cl ++ filter (has_category (fst cl)) names))
        cats.
Proof.
  induction names as [|n names IH]; intros cats Hnd; cbn [fold_left filter].
  - rewrite <- (map_id cats) at 1. apply map_ext. intros [c l].
    cbn [fst snd]. rewrite app_nil_r. reflexivity.
  - unfold Main.categorize_one at 2.
    destruct (Main.category_of n) as [c|] eqn:E.
    + rewrite IH by (rewrite append_to_labels; exact Hnd).
      rewrite (append_to_get _ _ _ Hnd), map_map.
      apply map_ext. intros [c' l]. cbn [fst snd].
      unfold has_category at 2. rewrite E.
      destruct (PyStr.eqb c c'); rewrite <- app_assoc; reflexivity.
    + rewrite (IH _ Hnd). apply map_ext. intros [c' l]. cbn [fst snd].
      unfold has_category at 2. rewrite E. reflexivity.
Qed.

Lemma categorize_map (all_constants : Dict.t) :
  Main.categorize all_constants
  = map (category_names all_constants) Main.categories0.
Proof.
  unfold Main.categorize. rewrite (categorize_fold _ _ categories0_labels).
  reflexivity.
Qed.

(** X10.  The loop of lines 168-189 is a sort followed by a filter: when it
    ends each category holds what the literal gave it ([FMOD_VERSION] for
    [Version], nothing for the others) and then, in sorted order, the names
    of the table that the chain of tests sends to it. *)
Theorem categorize_is_filter (all_constants : Dict.t) :
  Main.categorize all_constants
  = map (category_names all_constants) Main.categories0.
Proof. apply categorize_map. Qed.

(* ------------------------------------------------------------------ *)
(** ** The order of [sorted] *)

Lemma str_leb_total (a : str) :
  forall b, Main.str_leb a b = false -> Main.str_leb b a = true.
Proof.
  induction a as [|x a IH]; intros [|y b]; cbn [Main.str_leb]; intros H;
    try discriminate; try reflexivity.
  destruct (PyStr.code x <? PyStr.code y)%N eqn:E1; [discriminate|].
  destruct (PyStr.code y <? PyStr.code x)%N eqn:E2; [reflexivity|].
  auto.
Qed.

Lemma str_leb_trans (a : str) :
  forall b c,
    Main.str_leb a b = true -> Main.str_leb b c = true ->
    Main.str_leb a c = true.
Proof.
  induction a as [|x a IH]; intros [|y b] [|z c]; cbn [Main.str_leb];
    intros H1 H2; try discriminate; try reflexivity.
  destruct (PyStr.code x <? PyStr.code y)%N eqn:Exy;
    destruct (PyStr.code y <? PyStr.code x)%N eqn:Eyx;
    destruct (PyStr.code y <? PyStr.code z)%N eqn:Eyz;
    destruct (PyStr.code z <? PyStr.code y)%N eqn:Ezy;
    destruct (PyStr.code x <? PyStr.code z)%N eqn:Exz;
    destruct (PyStr.code z <? PyStr.code x)%N eqn:Ezx;
    try discriminate; try reflexivity;
    repeat match goal with
           | H : (_ <? _)%N = true |- _ => apply N.ltb_lt in H
           | H : (_ <? _)%N = false |- _ => apply N.ltb_ge in H
           end;
    try lia.
  eauto.
Qed.

Lemma insert_sorted_In (x y : str) (l : list str) :
  In y (Main.insert_sorted x l) <-> y = x \/ In y l.
Proof.
  induction l as [|z l IH]; cbn [Main.insert_sorted].
  - simpl. intuition.
  - destruct (Main.str_leb x z); simpl; [intuition|].
    rewrite IH. intuition.
Qed.

Lemma sorted_In (y : str) (l : list str) : In y (Main.sorted l) <-> In y l.
Proof.
  unfold Main.sorted. induction l as [|x l IH]; cbn [fold_right].
  - tauto.
  - rewrite insert_sorted_In, IH. simpl. intuition.
Qed.

Lemma insert_sorted_nodup (x : str) (l : list str) :
  ~ In x l -> NoDup l -> NoDup (Main.insert_sorted x l).
Proof.
  induction l as [|z l IH]; cbn [Main.insert_sorted]; intros Hx Hnd.
  - constructor; [intros [] | constructor].
  - destruct (Main.str_leb x z).
    + constructor; assumption.
    + inversion Hnd; subst. constructor.
      * rewrite insert_sorted_In. intros [-> | Hin]; [|contradiction].
        apply Hx. left. reflexivity.
      * apply IH; [|assumption]. intros Hin. apply Hx. right. exact Hin.
Qed.

Lemma sorted_nodup (l : list str) : NoDup l -> NoDup (Main.sorted l).
Proof.
  unfold Main.sorted. induction 1 as [|x l Hx Hnd IH]; cbn [fold_right].
  - constructor.
  - apply insert_sorted_nodup; [|exact IH].
    intros Hin. apply Hx. apply (sorted_In x l). exact Hin.
Qed.

Lemma insert_sorted_ascending (x : str) (l : list str) :
  ascending l -> ascending (Main.insert_sorted x l).
Proof.
  unfold ascending.
  induction l as [|z l IH]; cbn [Main.insert_sorted]; intros H.
  - constructor; constructor.
  - inversion H as [|? ? Hl Hz]; subst.
    destruct (Main.str_leb x z) eqn:E.
    + constructor; [exact H|]. constructor; [exact E|].
      rewrite Forall_forall in *. intros w Hw.
      apply (str_leb_trans x z w E). apply Hz. exact Hw.
    + constructor; [apply IH; exact Hl|].
      rewrite Forall_forall in *. intros w Hw.
      apply insert_sorted_In in Hw. destruct Hw as [-> | Hw].
      * apply str_leb_total. exact E.
      * apply Hz. exact Hw.
Qed.

Lemma sorted_ascending (l : list str) : ascending (Main.sorted l).
Proof.
  unfold Main.sorted. induction l as [|x l IH]; cbn [fold_right].
  - constructor.
  - apply insert_sorted_ascending. exact IH.
Qed.

Lemma filter_ascending (f : str -> bool) (l : list str) :
  ascending l -> ascending (filter f l).
Proof.
  unfold ascending. induction 1 as [|x l Hl IH Hx]; cbn [filter].
  - constructor.
  - destruct (f x); [|exact IH].
    constructor; [exact IH|].
    rewrite Forall_forall in *. intros w Hw.
    apply filter_In in Hw. apply Hx, Hw.
Qed.

Lemma has_category_version (name : str) :
  has_category "Version" name = false.
Proof.
  unfold has_category.
  destruct (Main.category_of name) as [c|] eqn:E; [|reflexivity].
  apply (category_of_not_version _ _ E).
Qed.

Lemma filter_none (f : str -> bool) (l : list str) :
  (forall x, f x = false) -> filter f l = [].
Proof.
  intros H. induction l as [|x l IH]; cbn [filter]; [reflexivity|].
  rewrite H. exact IH.
Qed.

(** The entries of the dictionary literal: [Version] with its one name, the
    others empty. *)
Lemma categories0_entries (cl : str * list str) :
  In cl Main.categories0 ->
  cl = ("Version" : str, ["FMOD_VERSION" : str]) \/ snd cl = [].
Proof.
  unfold Main.categories0. cbn [In].
  intros H. repeat (destruct H as [<- | H]; [auto|]). destruct H.
Qed.

(** X11.  In every category the names are in ascending order of code
    points, so the declarations of a block of the Java text are. *)
Theorem categories_ascending (all_constants : Dict.t) (c : str)
    (names : list str) :
  In (c, names) (Main.categorize all_constants) ->
  ascending names.
Proof.
  rewrite categorize_map. intros H.
  apply in_map_iff in H. destruct H as (cl & E & Hin).
  unfold category_names in E. inversion E; subst; clear E.
  destruct (categories0_entries cl Hin) as [-> | Hnil].
  - cbn [fst snd]. rewrite (filter_none _ _ has_category_version).
    repeat constructor.
  - rewrite Hnil. cbn [app].
    apply filter_ascending, sorted_ascending.
Qed.

(** The result codes of [sample_table], in order. *)
Lemma categories_ascending_witness :
  ascending [ "FMOD_ERR_BADCOMMAND" : str; "FMOD_OK" : str ].
Proof.
  apply (categories_ascending sample_table "Result codes").
  vm_compute. right. left. reflexivity.
Defined.

(* ------------------------------------------------------------------ *)
(** ** Which names are declared *)

Lemma emit_names_declared (category : str) (d : Dict.t) (names : list str) :
  forall ps,
    Main.emit_names category d names = Ok ps ->
    declared ps = filter (in_table d) names.
Proof.
  induction names as [|name names IH]; intros ps H; simpl in H.
  - inversion H; subst. reflexivity.
  - destruct (emit_names_ok category d names) as (qs & Hqs & _).
    rewrite Hqs in H. cbn [filter]. unfold in_table at 1, Dict.mem.
    destruct (Dict.get name d) as [value|] eqn:E.
    + rewrite (emit_name_present _ _ _ _ E) in H. cbn [bind] in H.
      inversion H; subst. cbn [app declared]. rewrite (IH _ Hqs).
      reflexivity.
    + rewrite (emit_name_absent _ _ _ E) in H. cbn [bind] in H.
      inversion H; subst. apply (IH _ Hqs).
Qed.

Lemma emit_category_declared (d : Dict.t) (cl : str * list str) :
  forall ps,
    Main.emit_category d cl = Ok ps ->
    declared ps = filter (in_table d) (snd cl).
Proof.
  intros ps H. unfold Main.emit_category in H.
  destruct (snd cl) as [|n ns] eqn:E.
  - inversion H; subst. reflexivity.
  - destruct (Main.emit_names (fst cl) d (n :: ns)) as [qs|e] eqn:Eq;
      cbn [bind] in H; inversion H; subst.
    cbn [declared]. rewrite declared_app. cbn [declared].
    rewrite app_nil_r. apply (emit_names_declared _ _ _ _ Eq).
Qed.

Lemma emit_categories_declared (d : Dict.t) (cats : Main.categories_t) :
  forall ps,
    Main.emit_categories d cats = Ok ps ->
    declared ps = flat_map (fun cl => filter (in_table d) (snd cl)) cats.
Proof.
  induction cats as [|cl cats IH]; intros ps H; simpl in H.
  - inversion H; subst. reflexivity.
  - destruct (Main.emit_category d cl) as [p|e] eqn:Ep; cbn [bind] in H;
      [|discriminate].
    destruct (Main.emit_categories d cats) as [qs|e] eqn:Eq; cbn [bind] in H;
      inversion H; subst.
    rewrite declared_app. cbn [flat_map].
    rewrite (emit_category_declared _ _ _ Ep), (IH _ eq_refl). reflexivity.
Qed.

Lemma pieces_declared (d : Dict.t) (ps : list Main.piece) :
  Main.pieces d = Ok ps ->
  declared ps
  = flat_map (fun cl => filter (in_table d) (snd (category_names d cl)))
      Main.categories0.
Proof.
  unfold Main.pieces. rewrite categorize_map. intros H.
  rewrite (emit_categories_declared _ _ _ H), flat_map_concat_map, map_map.
  rewrite <- flat_map_concat_map. reflexivity.
Qed.

Lemma startswith_weaken (p q s : str) :
  PyStr.startswith (p ++ q) s = true -> PyStr.startswith p s = true.
Proof.
  revert s. induction p as [|a p IH]; intros [|b s]; cbn [app PyStr.startswith];
    intros H; try reflexivity; try discriminate.
  apply andb_true_iff in H. destruct H as [-> H]. apply (IH _ H).
Qed.

Lemma category_of_prefix (name c : str) :
  Main.category_of name = Some c ->
  PyStr.startswith "FMOD_" name = true
  /\ In c (map fst Main.categories0)
  /\ PyStr.eqb name "FMOD_VERSION" = false.
Proof.
  unfold Main.category_of.
  destruct (PyStr.eqb name "FMOD_VERSION"); [discriminate|].
  destruct (PyStr.startswith "FMOD_OK" name || _) eqn:E0.
  { intros H; inversion H; subst. split; [|split; [vm_compute; tauto | reflexivity]].
    apply orb_true_iff in E0. destruct E0 as [E | E].
    - apply (startswith_weaken "FMOD_" "OK"). exact E.
    - apply (startswith_weaken "FMOD_" "ERR_"). exact E. }
  destruct (PyStr.startswith "FMOD_INIT_" name) eqn:E1.
  { intros H; inversion H; subst. split; [|split; [vm_compute; tauto | reflexivity]].
    apply (startswith_weaken "FMOD_" "INIT_"). exact E1. }
  destruct (PyStr.startswith "FMOD_TIMEUNIT_" name) eqn:E2.
  { intros H; inversion H; subst. split; [|split; [vm_compute; tauto | reflexivity]].
    apply (startswith_weaken "FMOD_" "TIMEUNIT_"). exact E2. }
  destruct (PyStr.startswith "FMOD_SYSTEM_CALLBACK_" name) eqn:E3.
  { intros H; inversion H; subst. split; [|split; [vm_compute; tauto | reflexivity]].
    apply (startswith_weaken "FMOD_" "SYSTEM_CALLBACK_"). exact E3. }
  destruct (PyStr.startswith "FMOD_CHANNELMASK_" name) eqn:E4.
  { intros H; inversion H; subst. split; [|split; [vm_compute; tauto | reflexivity]].
    apply (startswith_weaken "FMOD_" "CHANNELMASK_"). exact E4. }
  destruct (PyStr.startswith "FMOD_OUTPUTTYPE_" name) eqn:E5.
  { intros H; inversion H; subst. split; [|split; [vm_compute; tauto | reflexivity]].
    apply (startswith_weaken "FMOD_" "OUTPUTTYPE_"). exact E5. }
  destruct (PyStr.startswith "FMOD_SPEAKERMODE_" name) eqn:E6.
  { intros H; inversion H; subst. split; [|split; [vm_compute; tauto | reflexivity]].
    apply (startswith_weaken "FMOD_" "SPEAKERMODE_"). exact E6. }
  destruct (PyStr.startswith "FMOD_SOUND_TYPE_" name) eqn:E7.
  { intros H; inversion H; subst. split; [|split; [vm_compute; tauto | reflexivity]].
    apply (startswith_weaken "FMOD_" "SOUND_TYPE_"). exact E7. }
  destruct (PyStr.startswith "FMOD_" name) eqn:E8; [|discriminate].
  intros H; inversion H; subst. split; [reflexivity|].
  split; [vm_compute; tauto | reflexivity].
Qed.

Lemma category_of_some (name : str) :
  PyStr.startswith "FMOD_" name = true ->
  PyStr.eqb name "FMOD_VERSION" = false ->
  exists c, Main.category_of name = Some c.
Proof.
  intros H Hv. unfold Main.category_of. rewrite Hv, H.
  repeat match goal with
         | |- context [if ?b then _ else _] => destruct b
         end; eauto.
Qed.

Lemma has_category_refl (name c : str) :
  Main.category_of name = Some c -> has_category c name = true.
Proof. intros H. unfold has_category. rewrite H. apply str_eqb_refl. Qed.

Lemma in_table_key (d : Dict.t) (name : str) :
  in_table d name = true <-> In name (Dict.keys d).
Proof.
  unfold in_table, Dict.mem.
  destruct (Dict.get name d) eqn:E.
  - split; [|reflexivity]. intros _.
    destruct (in_dec (list_eq_dec ascii_dec) name (Dict.keys d)) as [H|H];
      [exact H|].
    apply get_none_not_key in H. congruence.
  - apply get_none_not_key in E. split; [discriminate | contradiction].
Qed.

Lemma declared_iff (all_constants : Dict.t)
    (ps : list Main.piece) (name : str) :
  Main.pieces all_constants = Ok ps ->
  (In name (declared ps)
   <-> Dict.get name all_constants <> None
       /\ PyStr.startswith "FMOD_" name = true).
Proof.
  intros H. rewrite (pieces_declared _ _ H), in_flat_map. split.
  - intros (cl & Hcl & Hin). apply filter_In in Hin.
    destruct Hin as [Hin Ht]. split.
    + apply in_table_key in Ht. intros E. apply get_none_not_key in E.
      contradiction.
    + unfold category_names in Hin. cbn [snd fst] in Hin.
      apply in_app_or in Hin. destruct Hin as [Hin | Hin].
      * destruct (categories0_entries cl Hcl) as [-> | Hnil].
        -- destruct Hin as [<- | []]. reflexivity.
        -- rewrite Hnil in Hin. destruct Hin.
      * apply filter_In in Hin. destruct Hin as [_ Hc].
        unfold has_category in Hc.
        destruct (Main.category_of name) as [c|] eqn:E; [|discriminate].
        apply (category_of_prefix _ _ E).
  - intros [Hget Hpre].
    assert (Ht : in_table all_constants name = true).
    { unfold in_table, Dict.mem.
      destruct (Dict.get name all_constants); [reflexivity | contradiction]. }
    destruct (PyStr.eqb name "FMOD_VERSION") eqn:Ev.
    + apply str_eqb_eq in Ev. subst name.
      exists ("Version" : str, ["FMOD_VERSION" : str]).
      split; [left; reflexivity|].
      apply filter_In. split; [|exact Ht]. left. reflexivity.
    + destruct (category_of_some _ Hpre Ev) as [c Hc].
      destruct (category_of_prefix _ _ Hc) as (_ & Hlab & _).
      apply in_map_iff in Hlab. destruct Hlab as (cl & <- & Hcl).
      exists cl. split; [exact Hcl|].
      apply filter_In. split; [|exact Ht].
      unfold category_names. cbn [snd fst]. apply in_or_app. right.
      apply filter_In. split.
      * apply sorted_In, in_table_key. exact Ht.
      * apply has_category_refl. exact Hc.
Qed.

(** X12.  A name is declared in the Java text exactly when it is in the
    table and starts with [FMOD_]: a symbol that matches no rule of lines
    169-189 is never emitted, every other one is. *)
Theorem declared_iff_prefixed (all_constants : Dict.t)
    (ps : list Main.piece) (name : str) :
  Main.pieces all_constants = Ok ps ->
  (In name (declared ps)
   <-> Dict.get name all_constants <> None
       /\ PyStr.startswith "FMOD_" name = true).
Proof. apply declared_iff. Qed.

(** In [sample_table] the symbol [OTHER] is left out and [FMOD_LOOP_NORMAL]
    is declared. *)
Lemma declared_iff_prefixed_witness :
  exists ps,
    Main.pieces sample_table = Ok ps
    /\ ~ In ("OTHER" : str) (declared ps)
    /\ In ("FMOD_LOOP_NORMAL" : str) (declared ps).
Proof.
  destruct (pieces_shape sample_table) as (v & rest & _ & _ & Hps).
  eexists. split; [exact Hps|]. split.
  - intros Hin.
    apply (declared_iff_prefixed sample_table _ "OTHER" Hps) in Hin.
    destruct Hin as [_ Hin]. vm_compute in Hin. discriminate.
  - apply (declared_iff_prefixed sample_table _ "FMOD_LOOP_NORMAL" Hps).
    split; vm_compute; [discriminate | reflexivity].
Defined.

(* ------------------------------------------------------------------ *)
(** ** No name is declared twice *)

Lemma belongs_functional (name c c' : str) :
  belongs name c -> belongs name c' -> c = c'.
Proof.
  assert (Hv : forall c0, has_category c0 "FMOD_VERSION" = false)
    by (intros c0; reflexivity).
  unfold belongs. intros [[-> ->] | H] [[E ->] | H'].
  - reflexivity.
  - rewrite Hv in H'. discriminate.
  - subst name. rewrite Hv in H. discriminate.
  - unfold has_category in *.
    destruct (Main.category_of name); [|discriminate].
    apply str_eqb_eq in H. apply str_eqb_eq in H'. congruence.
Qed.

Lemma flat_map_nodup (g : str * list str -> list str)
    (cats : Main.categories_t) :
  NoDup (map fst cats) ->
  (forall cl, In cl cats ->
     NoDup (g cl) /\ forall x, In x (g cl) -> belongs x (fst cl)) ->
  NoDup (flat_map g cats).
Proof.
  induction cats as [|cl cats IH]; intros Hnd Hg; cbn [flat_map].
  - constructor.
  - cbn [map] in Hnd. inversion Hnd as [|? ? Hcl Hnd']; subst.
    destruct (Hg cl (or_introl eq_refl)) as [Hn Hb].
    apply NoDup_app; [exact Hn | |].
    + apply IH; [exact Hnd'|]. intros cl' Hin. apply Hg. right. exact Hin.
    + intros x Hx Hx'. apply in_flat_map in Hx'.
      destruct Hx' as (cl' & Hin' & Hx').
      destruct (Hg cl' (or_intror Hin')) as [_ Hb'].
      pose proof (belongs_functional _ _ _ (Hb x Hx) (Hb' x Hx')) as E.
      apply Hcl. rewrite E. apply in_map. exact Hin'.
Qed.

Lemma declared_nodup (all_constants : Dict.t) (ps : list Main.piece) :
  NoDup (Dict.keys all_constants) ->
  Main.pieces all_constants = Ok ps ->
  NoDup (declared ps).
Proof.
  intros Hnd H. rewrite (pieces_declared _ _ H).
  apply flat_map_nodup; [apply categories0_labels|].
  intros cl Hcl. unfold category_names. cbn [snd fst].
  destruct (categories0_entries cl Hcl) as [-> | Hnil].
  - cbn [fst snd]. rewrite (filter_none _ _ has_category_version).
    cbn [app]. split.
    + apply NoDup_filter. repeat constructor. intros [].
    + intros x Hx. apply filter_In in Hx. destruct Hx as [[<- | []] _].
      left. split; reflexivity.
  - rewrite Hnil. cbn [app]. split.
    + apply NoDup_filter, NoDup_filter, sorted_nodup, Hnd.
    + intros x Hx. apply filter_In in Hx. destruct Hx as [Hx _].
      apply filter_In in Hx. right. apply Hx.
Qed.

(** X13.  When the names of the table are distinct, as those of a Python
    dictionary are, no name is declared twice in the Java text. *)
Theorem declared_once (all_constants : Dict.t) (ps : list Main.piece) :
  NoDup (Dict.keys all_constants) ->
  Main.pieces all_constants = Ok ps ->
  NoDup (declared ps).
Proof. apply declared_nodup. Qed.

(** The theorem applies to [sample_table]. *)
Lemma declared_once_witness :
  exists ps, Main.pieces sample_table = Ok ps /\ NoDup (declared ps).
Proof.
  destruct (pieces_shape sample_table) as (v & rest & _ & _ & Hps).
  eexists. split; [exact Hps|].
  apply (declared_once sample_table _); [|exact Hps].
  apply distinct_NoDup. vm_compute. reflexivity.
Defined.

(* ================================================================== *)
(** * The section of the mode flags *)
(* ================================================================== *)

Lemma lazy_until_shape (stop : str -> bool) (s : str) :
  forall body,
    Scan.lazy_until stop s = Some body ->
    exists post,
      s = body ++ post /\ stop post = true
      /\ forall a t, body = a ++ t -> t <> [] -> stop (t ++ post) = false.
Proof.
  induction s as [|c s IH]; intros body H; cbn [Scan.lazy_until] in H.
  - destruct (stop []) eqn:E; [|discriminate].
    inversion H; subst. exists []. split; [reflexivity|]. split; [exact E|].
    intros a t Ht Hne. destruct a; destruct t; try discriminate.
    contradiction.
  - destruct (stop (c :: s)) eqn:E.
    + inversion H; subst. exists (c :: s). split; [reflexivity|].
      split; [exact E|].
      intros a t Ht Hne. destruct a; destruct t; try discriminate.
      contradiction.
    + destruct (Scan.lazy_until stop s) as [b|] eqn:El; [|discriminate].
      inversion H; subst.
      destruct (IH _ eq_refl) as (post & -> & Hstop & Hmin).
      exists post. split; [reflexivity|]. split; [exact Hstop|].
      intros a t Ht Hne. destruct a as [|x a].
      * cbn [app] in Ht. subst t. exact E.
      * inversion Ht; subst. apply (Hmin a t eq_refl Hne).
Qed.

Lemma startswith_extend (p s post : str) :
  PyStr.startswith p s = true -> PyStr.startswith p (s ++ post) = true.
Proof.
  revert s. induction p as [|a p IH]; intros [|b s]; cbn [app PyStr.startswith];
    intros H; try reflexivity; try discriminate.
  apply andb_true_iff in H. destruct H as [-> H]. apply (IH _ H).
Qed.

Lemma contains_by_suffixes (sub s : str) :
  (forall a t, s = a ++ t -> PyStr.startswith sub t = false) ->
  PyStr.contains sub s = false.
Proof.
  induction s as [|c s IH]; intros H.
  - cbn [PyStr.contains]. rewrite (H [] [] eq_refl). reflexivity.
  - cbn [PyStr.contains]. rewrite (H [] (c :: s) eq_refl). cbn [orb].
    apply IH. intros a t ->. apply (H (c :: a) t). reflexivity.
Qed.

(** X14.  The section scanned for mode flags starts right after the first
    usable [typedef unsigned int FMOD_MODE;] and stops before the next
    [typedef] (or the comment that announces the time units): it never
    holds the word [typedef], so no macro written after the next typedef
    is taken for a mode flag by this scan. *)
Theorem mode_section_shape (fmod_common mode_section : str) :
  Scan.mode_section_match fmod_common = Some mode_section ->
  exists pre post,
    fmod_common = pre ++ mode_typedef ++ mode_section ++ post
    /\ Scan.mode_end_here post = true
    /\ PyStr.contains "typedef" mode_section = false.
Proof.
  assert (Hhere : forall s,
             Scan.mode_section_here s = Some mode_section ->
             exists post,
               s = mode_typedef ++ mode_section ++ post
               /\ Scan.mode_end_here post = true
               /\ PyStr.contains "typedef" mode_section = false).
  { intros s H. unfold Scan.mode_section_here in H.
    fold mode_typedef in H.
    destruct (PyStr.after_prefix mode_typedef s) as [r|] eqn:E;
      [|discriminate].
    apply after_prefix_app in E.
    destruct (lazy_until_shape _ _ _ H) as (post & -> & Hstop & Hmin).
    exists post. split; [exact E|]. split; [exact Hstop|].
    apply contains_by_suffixes. intros a t Ht.
    destruct t as [|c t]; [reflexivity|].
    destruct (PyStr.startswith "typedef" (c :: t)) eqn:Es; [|reflexivity].
    specialize (Hmin a (c :: t) Ht ltac:(discriminate)).
    unfold Scan.mode_end_here in Hmin.
    rewrite (startswith_extend _ _ post Es) in Hmin. discriminate. }
  induction fmod_common as [|c s IH]; cbn [Scan.mode_section_match];
    intros H.
  - destruct (Scan.mode_section_here []) eqn:E; [|discriminate].
    inversion H; subst. destruct (Hhere _ E) as (post & Hs & Hrest).
    exists [], post. split; [exact Hs | exact Hrest].
  - destruct (Scan.mode_section_here (c :: s)) eqn:E.
    + inversion H; subst. destruct (Hhere _ E) as (post & Hs & Hrest).
      exists [], post. split; [exact Hs | exact Hrest].
    + destruct (IH H) as (pre & post & -> & Hrest).
      exists (c :: pre), post. split; [reflexivity | exact Hrest].
Qed.

(** In [header_modes] the section ends before [typedef int FMOD_OTHER;], and
    [FMOD_LATE] is not among the modes scanned. *)
Lemma mode_section_shape_witness :
  PyStr.contains "typedef" (nl ++ "#define FMOD_DEFAULT 0x00000000" ++ nl)
  = false
  /\ Scan.add_modes header_modes Dict.empty
     = Ok [ ("FMOD_DEFAULT" : str, 0) ].
Proof.
  destruct (mode_section_shape header_modes
              (nl ++ "#define FMOD_DEFAULT 0x00000000" ++ nl) eq_refl)
    as (pre & post & _ & _ & H).
  split; [exact H | reflexivity].
Defined.

(* ================================================================== *)
(** * [main] as a whole *)
(* ================================================================== *)

(** X15.  When [main] succeeds, the text it writes is the header, the
    pieces of the merged table and the closing brace; the total it prints
    is the number of names of the table, which are distinct; no name is
    declared twice, and the total is at least the number of declarations
    (names that match no rule are counted and not declared). *)
Theorem main_output (fmod_common java_code : str) (total : nat) :
  main fmod_common = Ok (java_code, total) ->
  exists all_constants ps,
    Scan.all_constants fmod_common = Ok all_constants
    /\ Main.pieces all_constants = Ok ps
    /\ java_code
       = Main.java_header ++ concat (map Main.render ps) ++ "}" ++ nl
    /\ NoDup (Dict.keys all_constants)
    /\ total = length (Dict.keys all_constants)
    /\ NoDup (declared ps)
    /\ (length (declared ps) <= total)%nat.
Proof.
  unfold main. intros H.
  destruct (Scan.all_constants fmod_common) as [d|e] eqn:E;
    cbn [bind] in H; [|discriminate].
  destruct (all_constants_ok fmod_common (all_constants_inv _ _ E))
    as (d' & Hd' & Hnd).
  assert (d' = d) by congruence. subst d'.
  destruct (pieces_shape d) as (v & rest & _ & _ & Hps).
  rewrite (java_code_of_pieces _ _ Hps) in H. cbn [bind] in H.
  inversion H; subst.
  pose proof (declared_nodup d _ Hnd Hps) as Hdecl.
  eexists d, _. split; [reflexivity|]. split; [exact Hps|].
  split; [reflexivity|]. split; [exact Hnd|].
  split; [unfold Dict.keys; rewrite length_map; reflexivity|].
  split; [exact Hdecl|].
  unfold Dict.keys. rewrite <- (length_map fst d).
  apply NoDup_incl_length; [exact Hdecl|].
  intros x Hx.
  apply (declared_iff d _ x Hps) in Hx. destruct Hx as [Hx _].
  destruct (in_dec (list_eq_dec ascii_dec) x (Dict.keys d)) as [Hin|Hin];
    [exact Hin|].
  apply get_none_not_key in Hin. contradiction.
Qed.

(** The theorem applies to [sample_header]: six names, all declared. *)
Lemma main_output_witness :
  exists java_code total all_constants ps,
    main sample_header = Ok (java_code, total)
    /\ total = 6%nat
    /\ Scan.all_constants sample_header = Ok all_constants
    /\ Main.pieces all_constants = Ok ps
    /\ NoDup (declared ps).
Proof.
  assert (Hn : match main sample_header with
               | Ok (_, n) => n = 6%nat
               | Raise _ => False
               end) by (vm_compute; reflexivity).
  destruct (main sample_header) as [[java_code total]|e] eqn:E;
    [|contradiction].
  destruct (main_output sample_header java_code total E)
    as (d & ps & Hd & Hps & _ & _ & _ & Hnd & _).
  exists java_code, total, d, ps. auto.
Defined.

(* ------------------------------------------------------------------ *)
(** ** The version symbol of the merged table *)




